(** * vox-movearound: configuration, naming, tagging, tag policy and the
      edge authorizer

    A shallow embedding of the Python sources

    - [infrastructure/app.py] (configuration merge and stack assembly),
    - [infrastructure/stacks/base_stack.py] (region codes, standard tags,
      resource names), [layer_stack.py] and [lambda_stack.py],
    - [scripts/validate_tags.py] (the tag policy validator),
    - [layers/common] ([utils.py], [models.py]),
      [lambdas/authorizer/handler.py] (the request authorizer) and
      [lambdas/api_handler] (the API handler),

    and of the stack graph builder the specification describes, followed
    by the properties the specification states about them.

    Python dictionaries are [gmap]s, Python exceptions are values of [exn]
    carried by [result], and what the code takes from outside (the
    process environment, the clock, the order in which a set is iterated,
    the answers of [aws_cdk] and of PyJWT) are explicit arguments. *)

From Stdlib Require Import ZArith QArith String Ascii List Lia DecimalString.
From stdpp Require Import gmap strings list fin_maps relations.

Local Open Scope string_scope.
Set Warnings "-register-all,-clear-no-such-hyp".

(* ===================================================================== *)
(** * Python values, exceptions and results                               *)
(* ===================================================================== *)

(** The values a YAML document or a JSON payload holds.  Mappings nested
    inside a value keep their insertion order, as Python dictionaries do;
    the loaders never produce two entries with one key.  Floating-point
    numbers do not occur in the configuration this development looks at
    and are left out. *)
Inductive pyval :=
| PNone
| PBool (b : bool)
| PInt (z : Z)
| PStr (s : string)
| PList (l : list pyval)
| PDict (kvs : list (string * pyval)).

(** The exception classes the sources raise or catch.  All of them are
    subclasses of Python's [Exception]; [ExpiredSignatureError] is a
    subclass of [InvalidTokenError] (PyJWT). *)
Inductive exn :=
| Exception (msg : string)
| KeyError (key : string)
| TypeError (msg : string)
| AttributeError (name : string)
| ValueError (msg : string)
| InvalidTokenError (msg : string)
| ExpiredSignatureError (msg : string).

Inductive result (A : Type) :=
| Ok (a : A)
| Raise (e : exn).
Arguments Ok {A} a.
Arguments Raise {A} e.

#[global] Instance result_ret : MRet result := fun A a => Ok a.
#[global] Instance result_bind : MBind result := fun A B f m =>
  match m with
  | Ok a => f a
  | Raise e => Raise e
  end.

Definition is_ok {A} (r : result A) : bool :=
  match r with Ok _ => true | Raise _ => false end.

(** [d[k]] on a dictionary: [KeyError] when the key is absent. *)
Definition getitem {V} (d : gmap string V) (k : string) : result V :=
  match d !! k with
  | Some v => Ok v
  | None => Raise (KeyError k)
  end.

(** [d.get(k, default)]. *)
Definition get_default {V} (d : gmap string V) (k : string) (dflt : V) : V :=
  default dflt (d !! k).

(** Lookup in a nested mapping. *)
Fixpoint assoc (k : string) (kvs : list (string * pyval)) : option pyval :=
  match kvs with
  | [] => None
  | (k', v) :: rest => if String.eqb k k' then Some v else assoc k rest
  end.

(** [v[k]] where [v] came out of a dictionary: a nested mapping is looked
    up ([KeyError] on a miss), any other value cannot be indexed by a
    string key in the way the sources do. *)
Definition subscript (v : pyval) (k : string) : result pyval :=
  match v with
  | PDict kvs =>
      match assoc k kvs with
      | Some x => Ok x
      | None => Raise (KeyError k)
      end
  | _ => Raise (TypeError "subscript")
  end.

(** [sep.join(l)]. *)
Fixpoint join (sep : string) (l : list string) : string :=
  match l with
  | [] => ""
  | [x] => x
  | x :: rest => x +:+ sep +:+ join sep rest
  end.

(** [str(z)] for an integer. *)
Definition str_of_Z (z : Z) : string := NilZero.string_of_int (Z.to_int z).

(** [repr(v)] and [str(v)].  The quoting of a string inside a container
    is Python's for strings without quotes, backslashes or control
    characters. *)
Fixpoint py_repr (v : pyval) : string :=
  match v with
  | PNone => "None"
  | PBool true => "True"
  | PBool false => "False"
  | PInt z => str_of_Z z
  | PStr s => "'" +:+ s +:+ "'"
  | PList l => "[" +:+ join ", " (map py_repr l) +:+ "]"
  | PDict kvs =>
      "{" +:+ join ", " (map (fun kv => "'" +:+ fst kv +:+ "': " +:+ py_repr (snd kv)) kvs)
          +:+ "}"
  end.

Definition py_str (v : pyval) : string :=
  match v with
  | PStr s => s
  | _ => py_repr v
  end.

(** Python truthiness. *)
Definition truthy (v : pyval) : bool :=
  match v with
  | PNone => false
  | PBool b => b
  | PInt z => negb (Z.eqb z 0)
  | PStr s => negb (String.eqb s "")
  | PList l => match l with [] => false | _ => true end
  | PDict kvs => match kvs with [] => false | _ => true end
  end.

(** [v == "literal"]. *)
Definition eq_str (v : pyval) (lit : string) : bool :=
  match v with
  | PStr s => String.eqb s lit
  | _ => false
  end.

(** [s[:n]]: the first [n] characters, or all of [s] when it is shorter. *)
Fixpoint slice_to (n : nat) (s : string) : string :=
  match n, s with
  | S n', String c s' => String c (slice_to n' s')
  | _, _ => ""
  end.

(** [s.replace(old, new)] for a non-empty [old]: every occurrence, left to
    right, without overlaps.  [skip] counts the characters of a match that
    are still to be dropped. *)
Fixpoint replace_from (old new : string) (skip : nat) (s : string) : string :=
  match s with
  | "" => ""
  | String c s' =>
      match skip with
      | S k => replace_from old new k s'
      | O =>
          if String.prefix old s
          then new +:+ replace_from old new (String.length old - 1) s'
          else String c (replace_from old new 0 s')
      end
  end.

Definition str_replace (old new s : string) : string := replace_from old new 0 s.

(** [needle in haystack] as a proposition. *)
Definition mentions (haystack needle : string) : Prop :=
  exists pre post, haystack = pre +:+ needle +:+ post.

(* ===================================================================== *)
(** * The construct tree: what a deployment run does                      *)
(* ===================================================================== *)

(** The sources drive the [aws_cdk] library.  The embedding records each
    call into it, in program order, as an [action]; a run is the list of
    actions performed together with the value returned or the exception
    that ended it. *)
Module cdk.

Inductive action :=
| StackConstructed (id : string)
| TagAdded (stack key : string) (value : pyval)
| ResourceDeclared (stack logical_id name : string)
| DependencyAdded (stack target : string)
| Synthesized.

Record deploy (A : Type) := Deploy { trace : list action; outcome : result A }.
Arguments Deploy {A} trace outcome.
Arguments trace {A} d.
Arguments outcome {A} d.

#[global] Instance deploy_ret : MRet deploy := fun A a => Deploy [] (Ok a).
#[global] Instance deploy_bind : MBind deploy := fun A B f m =>
  match outcome m with
  | Ok a => Deploy (trace m ++ trace (f a)) (outcome (f a))
  | Raise e => Deploy (trace m) (Raise e)
  end.

(** An action that cannot fail. *)
Definition emit (a : action) : deploy unit := Deploy [a] (Ok tt).

(** A pure step that may raise. *)
Definition lift {A} (r : result A) : deploy A := Deploy [] r.

(** What a call into [aws_cdk] does is left to the library: [lib name
    args] is what the call [name] does with the arguments [args], it
    returns or raises.  The arguments listed are those the program takes
    from the configuration, the process environment or the file system;
    a call nested in the arguments of another one and made on constants
    (a principal, a runtime, a policy statement) is part of that call. *)
Definition library := string -> list pyval -> result unit.

Definition call (lib : library) (name : string) (args : list pyval) : deploy unit :=
  lift (lib name args).

(** A construct of a stack: the constructor is called, and when it
    returns the resource is part of the stack. *)
Definition declare
    (lib : library) (constructor stack logical_id name : string)
    (args : list pyval) : deploy unit :=
  call lib constructor (PStr name :: args);;
  emit (ResourceDeclared stack logical_id name).

(** The tags a run attached to the stack [stack]: a later [add] of a key
    replaces an earlier one. *)
Definition tags_of (stack : string) (t : list action) : gmap string pyval :=
  foldl (fun m a =>
           match a with
           | TagAdded s k v => if String.eqb s stack then <[k:=v]> m else m
           | _ => m
           end) ∅ t.

Definition is_tagging (a : action) : bool :=
  match a with TagAdded _ _ _ => true | _ => false end.

Definition is_construction (a : action) : bool :=
  match a with StackConstructed _ => true | _ => false end.

Definition is_naming (a : action) : bool :=
  match a with ResourceDeclared _ _ _ => true | _ => false end.

End cdk.
Import cdk.

(* ===================================================================== *)
(** * infrastructure/stacks/base_stack.py                                 *)
(* ===================================================================== *)

Module base_stack.

(** The attributes the methods of [BaseStack] read.  [region] is the
    region the stack was created with ([env=cdk.Environment(region=...)]),
    the others are what [__init__] assigns. *)
Record BaseStack := {
  construct_id : string;
  config : gmap string pyval;
  region : pyval;
  environment : pyval;
  company_code : pyval;
  region_code : string
}.

Definition region_map : gmap string string :=
  list_to_map
    [("us-east-1", "use1");
     ("us-west-2", "usw2");
     ("eu-west-1", "euw1");
     ("eu-central-1", "euc1");
     ("ap-southeast-1", "apse1")].

(** [region_map.get(self.region, self.region[:4])].  A region that is not
    a string can be neither sliced nor looked up as the code does. *)
Definition _get_region_code (region : pyval) : result string :=
  match region with
  | PStr r => Ok (get_default region_map r (slice_to 4 r))
  | _ => Raise (TypeError "region")
  end.

(** [Tags.of(self).add(key, value)]: the library takes a [str] for the
    value and raises [TypeError] for anything else. *)
Definition tags_add (self_id key : string) (value : pyval) : deploy unit :=
  match value with
  | PStr _ => emit (TagAdded self_id key value)
  | _ => lift (Raise (TypeError "value"))
  end.

(** [_apply_standard_tags].  [today] is what
    [datetime.now().strftime("%Y-%m-%d")] returns when the stack is
    built. *)
Definition _apply_standard_tags
    (id : string) (config : gmap string pyval) (environment : pyval)
    (today : string) : deploy unit :=
  tags_add id "Environment" environment;;
  project_name ← lift (getitem config "project_name");
  tags_add id "Project" project_name;;
  owner ← lift (getitem config "owner");
  tags_add id "Owner" owner;;
  cost_center ← lift (getitem config "cost_center");
  tags_add id "CostCenter" cost_center;;
  tags_add id "ManagedBy" (PStr "cdk");;
  tags_add id "CreatedDate" (PStr today);;
  tags_add id "DataClassification"
    (get_default config "data_classification" (PStr "internal"));;
  if eq_str environment "prd" then
    tags_add id "SLA" (get_default config "sla" (PStr "99.9"));;
    tags_add id "CriticalityLevel" (get_default config "criticality" (PStr "high"))
  else if eq_str environment "dev" then
    tags_add id "AutoShutdown" (PStr "true");;
    tags_add id "Purpose" (PStr "development")
  else
    mret tt.

(** [d.strftime("%Y-%m-%d")] for a date of the years 1000 to 9999: four
    digits, two digits, two digits, zero-padded. *)
Definition digit_char (n : Z) : ascii := ascii_of_nat (48 + Z.to_nat n).

Definition pad2 (n : Z) : string :=
  String (digit_char (n / 10 mod 10)) (String (digit_char (n mod 10)) "").

Definition pad4 (n : Z) : string :=
  String (digit_char (n / 1000 mod 10))
    (String (digit_char (n / 100 mod 10)) (pad2 n)).

Definition strftime_ymd (y m d : Z) : string :=
  pad4 y +:+ "-" +:+ pad2 m +:+ "-" +:+ pad2 d.

(** The tag set [_apply_standard_tags] leaves on the stack. *)
Definition standard_tags
    (id : string) (config : gmap string pyval) (environment : pyval)
    (today : string) : gmap string pyval :=
  tags_of id (trace (_apply_standard_tags id config environment today)).

(** [self.environment = value].  [environment] is a property of
    [aws_cdk.Stack] that has no setter: the assignment raises
    [AttributeError], whatever the value. *)
Definition set_environment (value : pyval) : result unit :=
  Raise (AttributeError "environment").

(** [BaseStack.__init__].  The statements after the assignment to
    [self.environment] are those of the source; no run reaches them. *)
Definition __init__
    (lib : library) (id : string) (cfg : gmap string pyval) (env_region : pyval)
    (today : string) : deploy BaseStack :=
  call lib "Stack" [PStr id];;
  emit (StackConstructed id);;
  environment ← lift (getitem cfg "environment");
  lift (set_environment environment);;
  company_code ← lift (getitem cfg "company_code");
  region_code ← lift (_get_region_code env_region);
  _apply_standard_tags id cfg environment today;;
  mret {| construct_id := id; config := cfg; region := env_region;
          environment := environment; company_code := company_code;
          region_code := region_code |}.

(** [get_resource_name]: the f-string formats each field with [str]. *)
Definition get_resource_name
    (self : BaseStack) (service resource_type identifier : string) : string :=
  py_str (company_code self) +:+ "-" +:+ py_str (environment self) +:+ "-" +:+
  region_code self +:+ "-" +:+ service +:+ "-" +:+ resource_type +:+ "-" +:+
  identifier.

Definition get_stack_name (self : BaseStack) (purpose : string) : string :=
  py_str (company_code self) +:+ "-" +:+ py_str (environment self) +:+ "-" +:+
  purpose +:+ "-stack".

End base_stack.

(* ===================================================================== *)
(** * infrastructure/stacks/layer_stack.py, lambda_stack.py               *)
(* ===================================================================== *)

Module layer_stack.
Import base_stack.

(** The statements of [LayerStack.__init__] after the base initialiser:
    the layer version, built from the packaged sources, and the
    parameter that stores its ARN. *)
Definition resources (lib : library) (self : BaseStack) : deploy unit :=
  let id := construct_id self in
  call lib "Code.from_asset" [PStr "layers/common/dist"];;
  declare lib "LayerVersion" id "CommonLayer"
    (get_resource_name self "common" "layer" "utils") [];;
  declare lib "StringParameter" id "CommonLayerArnParameter"
    ("/" +:+ py_str (company_code self) +:+ "/" +:+
     py_str (environment self) +:+ "/lambda/layers/common/arn") [].

(** [LayerStack.__init__]. *)
Definition __init__
    (lib : library) (id : string) (cfg : gmap string pyval) (env_region : pyval)
    (today : string) : deploy BaseStack :=
  self ← base_stack.__init__ lib id cfg env_region today;
  resources lib self;;
  mret self.

End layer_stack.

Module lambda_stack.
Import base_stack.

(** [self.config[section][key]]. *)
Definition config2 (cfg : gmap string pyval) (section key : string) : result pyval :=
  sec ← getitem cfg section; subscript sec key.

(** The statements of [LambdaStack.__init__] after the base initialiser.
    The arguments of a construct are evaluated, in the order they are
    written, before its constructor is called. *)
Definition resources (lib : library) (self : BaseStack) : deploy unit :=
  let id := construct_id self in
  let cfg := config self in
  call lib "LayerVersion.from_layer_version_arn" [];;
  declare lib "Role" id "LambdaExecutionRole"
    (get_resource_name self "lambda" "role" "execution") [];;
  call lib "Role.add_to_policy" [];;
  call lib "Code.from_asset" [PStr "lambdas/authorizer/dist"];;
  timeout ← lift (config2 cfg "lambda" "timeout_seconds");
  call lib "Duration.seconds" [timeout];;
  memory_size ← lift (config2 cfg "lambda" "memory_size");
  retention ← lift (config2 cfg "lambda" "log_retention_days");
  call lib "RetentionDays" [retention];;
  declare lib "Function" id "AuthorizerFunction"
    (get_resource_name self "auth" "fn" "authorizer")
    [memory_size; environment self];;
  call lib "TokenAuthorizer" [];;
  allowed_origins ← lift (config2 cfg "security" "allowed_origins");
  rate_limit ← lift (config2 cfg "api_gateway" "throttle_rate_limit");
  burst_limit ← lift (config2 cfg "api_gateway" "throttle_burst_limit");
  declare lib "RestApi" id "ApiGateway"
    (get_resource_name self "main" "api" "gateway")
    [allowed_origins; rate_limit; burst_limit];;
  call lib "Code.from_asset" [PStr "lambdas/api_handler/dist"];;
  timeout ← lift (config2 cfg "lambda" "timeout_seconds");
  call lib "Duration.seconds" [timeout];;
  memory_size ← lift (config2 cfg "lambda" "memory_size");
  declare lib "Function" id "ApiHandlerFunction"
    (get_resource_name self "api" "fn" "handler")
    [memory_size; environment self];;
  call lib "Resource.add_resource" [];;
  call lib "Resource.add_method" [].

(** [LambdaStack.__init__]. *)
Definition __init__
    (lib : library) (id : string) (cfg : gmap string pyval) (env_region : pyval)
    (today : string) : deploy BaseStack :=
  self ← base_stack.__init__ lib id cfg env_region today;
  resources lib self;;
  mret self.

End lambda_stack.

(* ===================================================================== *)
(** * infrastructure/app.py                                               *)
(* ===================================================================== *)

Module app.
Import base_stack.

(** [{**default_config, **env_config}]: the entries of the defaults, then
    those of the environment document, a repeated key keeping the later
    value.  On [gmap] this is the union that prefers its left operand. *)
Definition merge_config (default_config env_config : gmap string pyval)
    : gmap string pyval :=
  env_config ∪ default_config.

(** The keys the specification lists as required. *)
Definition required_keys : list string :=
  ["company_code"; "region"; "environment"; "project_name"; "owner"; "cost_center"].

Definition stack_id (company_code : pyval) (env purpose : string) : string :=
  py_str company_code +:+ "-" +:+ env +:+ "-" +:+ purpose +:+ "-stack".

(** [os.getenv(name)]: the value of the variable, or [None]. *)
Definition getenv (environ : gmap string string) (name : string) : pyval :=
  match environ !! name with
  | Some v => PStr v
  | None => PNone
  end.

(** The stack assembly of [app.py] (from [app = cdk.App()] on).
    [account] is the value of [os.getenv("CDK_DEFAULT_ACCOUNT")].  The
    arguments of a stack are evaluated before its constructor runs: the
    identifier, then the environment with the region of the
    configuration.  The last statement modelled is the argument
    [lambda_stack.api_url] of the third stack, an attribute [LambdaStack]
    never sets. *)
Definition assemble
    (lib : library) (account : pyval) (env today : string)
    (config : gmap string pyval) : deploy unit :=
  cc ← lift (getitem config "company_code");
  region ← lift (getitem config "region");
  call lib "Environment" [account; region];;
  layer ← layer_stack.__init__ lib (stack_id cc env "layer") config region today;
  cc ← lift (getitem config "company_code");
  region ← lift (getitem config "region");
  call lib "Environment" [account; region];;
  lambda ← lambda_stack.__init__ lib (stack_id cc env "lambda") config region today;
  emit (DependencyAdded (construct_id lambda) (construct_id layer));;
  lift (getitem config "company_code");;
  lift (Raise (AttributeError "api_url")).

(** The module body of [app.py].  [environ] is the process environment,
    [today] the formatted current date, and the two documents are what
    [yaml.safe_load] returned. *)
Definition main
    (lib : library) (environ : gmap string string) (today : string)
    (default_config env_config : gmap string pyval) : deploy unit :=
  let env := get_default environ "ENVIRONMENT" "dev" in
  let account := getenv environ "CDK_DEFAULT_ACCOUNT" in
  let config := merge_config default_config env_config in
  assemble lib account env today config.

End app.

(* ===================================================================== *)
(** * scripts/validate_tags.py                                            *)
(* ===================================================================== *)

Module validate_tags.

Definition mandatory_tags : gset string :=
  {[ "Environment"; "Project"; "Owner"; "CostCenter";
     "ManagedBy"; "CreatedDate"; "DataClassification" ]}.

Definition valid_environments : gset string := {[ "dev"; "stg"; "prd" ]}.

Definition valid_data_classifications : gset string :=
  {[ "public"; "internal"; "confidential"; "restricted" ]}.

(** [key in tags]. *)
Definition contains (tags : gmap string string) (key : string) : bool :=
  match tags !! key with Some _ => true | None => false end.

(** ** [datetime.strptime(s, "%Y-%m-%d")]

    The directives are matched as CPython's [_strptime] does: [%Y] is
    four digits, [%m] is [1[0-2]|0[1-9]|[1-9]], [%d] is
    [3[0-1]|[1-2]\d|0[1-9]|[1-9]| [1-9]], the alternatives tried in that
    order; nothing may follow the day; and the three numbers must form a
    date of the proleptic Gregorian calendar with a year of at least 1.
    Every failure is a [ValueError].  Digits are the ASCII digits. *)

Definition digit (c : ascii) : option Z :=
  let n := Z.of_nat (nat_of_ascii c) in
  if (48 <=? n)%Z && (n <=? 57)%Z then Some (n - 48)%Z else None.

Definition in_range (lo hi : Z) (c : ascii) : option Z :=
  match digit c with
  | Some d => if (lo <=? d)%Z && (d <=? hi)%Z then Some d else None
  | None => None
  end.

Definition parse_year (s : string) : option (Z * string) :=
  match s with
  | String a (String b (String c (String d rest))) =>
      match digit a, digit b, digit c, digit d with
      | Some x, Some y, Some z, Some w =>
          Some ((1000 * x + 100 * y + 10 * z + w)%Z, rest)
      | _, _, _, _ => None
      end
  | _ => None
  end.

(** Two characters [c1 c2] with [c1] the given digit and [c2] in a range. *)
Definition two_digits (tens : Z) (lo hi : Z) (s : string) : option (Z * string) :=
  match s with
  | String a (String b rest) =>
      match in_range tens tens a, in_range lo hi b with
      | Some x, Some y => Some ((10 * x + y)%Z, rest)
      | _, _ => None
      end
  | _ => None
  end.

Definition one_digit (lo hi : Z) (s : string) : option (Z * string) :=
  match s with
  | String a rest =>
      match in_range lo hi a with
      | Some x => Some (x, rest)
      | None => None
      end
  | _ => None
  end.

Definition space_digit (s : string) : option (Z * string) :=
  match s with
  | String " " rest => one_digit 1 9 rest
  | _ => None
  end.

(** The first alternative that matches. *)
Fixpoint first_match (alts : list (string -> option (Z * string))) (s : string)
    : option (Z * string) :=
  match alts with
  | [] => None
  | p :: rest => match p s with Some r => Some r | None => first_match rest s end
  end.

Definition parse_month : string -> option (Z * string) :=
  first_match [two_digits 1 0 2; two_digits 0 1 9; one_digit 1 9].

Definition parse_day : string -> option (Z * string) :=
  first_match [two_digits 3 0 1; two_digits 1 0 9; two_digits 2 0 9;
               two_digits 0 1 9; one_digit 1 9; space_digit].

Definition expect_dash (s : string) : option string :=
  match s with
  | String "-" rest => Some rest
  | _ => None
  end.

Definition is_leap (y : Z) : bool :=
  ((y mod 4 =? 0) && (negb (y mod 100 =? 0) || (y mod 400 =? 0)))%Z.

Definition days_in_month (y m : Z) : Z :=
  if (m =? 2)%Z then (if is_leap y then 29 else 28)%Z
  else if ((m =? 4) || (m =? 6) || (m =? 9) || (m =? 11))%Z then 30%Z
  else 31%Z.

Definition valid_date (y m d : Z) : bool :=
  ((1 <=? y) && (1 <=? m) && (m <=? 12) && (1 <=? d) && (d <=? days_in_month y m))%Z.

Definition strptime_ymd (s : string) : result (Z * Z * Z) :=
  match parse_year s with
  | None => Raise (ValueError "does not match format")
  | Some (y, s1) =>
  match expect_dash s1 with
  | None => Raise (ValueError "does not match format")
  | Some s2 =>
  match parse_month s2 with
  | None => Raise (ValueError "does not match format")
  | Some (m, s3) =>
  match expect_dash s3 with
  | None => Raise (ValueError "does not match format")
  | Some s4 =>
  match parse_day s4 with
  | None => Raise (ValueError "does not match format")
  | Some (d, "") =>
      if valid_date y m d then Ok (y, m, d)
      else Raise (ValueError "out of range")
  | Some (_, String _ _) => Raise (ValueError "unconverted data remains")
  end end end end end.

(** ** [TagValidator.validate_tags]

    [iter_set] is the order in which Python iterates over a set of
    strings; it is not fixed by the language and is an argument here. *)
Definition validate_tags
    (iter_set : gset string -> list string) (tags : gmap string string)
    : result (list string) :=
  let errors : list string := [] in
  let missing_tags := mandatory_tags ∖ dom tags in
  let errors :=
    if decide (missing_tags = ∅) then errors
    else (errors ++ ["Missing mandatory tags: " +:+ join ", " (iter_set missing_tags)])%list in
  errors ←
    (if contains tags "Environment" then
       v ← getitem tags "Environment";
       if decide (v ∈ valid_environments) then mret errors
       else v ← getitem tags "Environment";
            mret (errors ++ ["Invalid Environment tag: " +:+ v])%list
     else mret errors);
  errors ←
    (if contains tags "DataClassification" then
       v ← getitem tags "DataClassification";
       if decide (v ∈ valid_data_classifications) then mret errors
       else v ← getitem tags "DataClassification";
            mret (errors ++ ["Invalid DataClassification: " +:+ v])%list
     else mret errors);
  errors ←
    (if contains tags "CreatedDate" then
       match (v ← getitem tags "CreatedDate"; strptime_ymd v) with
       | Ok _ => mret errors
       | Raise (ValueError _) =>
           v ← getitem tags "CreatedDate";
           mret (errors ++ ["Invalid CreatedDate format: " +:+ v])%list
       | Raise e => Raise e
       end
     else mret errors);
  mret errors.

(** The tag set [main] validates. *)
Definition test_tags : gmap string string :=
  list_to_map
    [("Environment", "dev");
     ("Project", "lambda-monorepo");
     ("Owner", "platform-team");
     ("CostCenter", "ENG-001");
     ("ManagedBy", "cdk");
     ("CreatedDate", "2024-01-15");
     ("DataClassification", "internal")].

(** [main]: the exit status. *)
Definition main (iter_set : gset string -> list string) : result Z :=
  errors ← validate_tags iter_set test_tags;
  match errors with
  | [] => mret 0%Z
  | _ => mret 1%Z
  end.

End validate_tags.

(* ===================================================================== *)
(** * layers/common: models.py and utils.py                               *)
(* ===================================================================== *)

Module models.

(** [AuthContext].  The fields hold whatever the decoded token carried. *)
Record AuthContext := {
  user_id : pyval;
  email : pyval;
  roles : pyval;
  expires_at : pyval
}.

(** The dataclass constructor followed by [__post_init__]. *)
Definition make (user_id email roles expires_at : pyval) : AuthContext :=
  {| user_id := user_id;
     email := email;
     roles := match roles with PNone => PList [] | r => r end;
     expires_at := expires_at |}.

(** The items [",".join(x)] iterates over: the elements of a list, the
    keys of a mapping, the characters of a string; every item must be a
    string.  Other values cannot be iterated. *)
Fixpoint all_strings (l : list pyval) : result (list string) :=
  match l with
  | [] => Ok []
  | PStr s :: rest => rest' ← all_strings rest; mret (s :: rest')
  | _ :: _ => Raise (TypeError "join")
  end.

Fixpoint chars (s : string) : list string :=
  match s with
  | "" => []
  | String c rest => String c "" :: chars rest
  end.

Definition join_value (sep : string) (v : pyval) : result string :=
  match v with
  | PList l => items ← all_strings l; mret (join sep items)
  | PDict kvs => mret (join sep (map fst kvs))
  | PStr s => mret (join sep (chars s))
  | _ => Raise (TypeError "join")
  end.

(** [AuthContext.to_dict]. *)
Definition to_dict (self : AuthContext) : result (gmap string pyval) :=
  let e := if truthy (email self) then email self else PStr "" in
  r ← join_value "," (roles self);
  let x := if truthy (expires_at self) then PStr (py_str (expires_at self))
           else PStr "" in
  mret (<["expiresAt" := x]>
        (<["roles" := PStr r]>
        (<["email" := e]>
        (<["userId" := user_id self]> ∅)))).

(** [AuthContext.is_expired].  [now] is [datetime.now().timestamp()], a
    floating-point number and so a rational; Python compares it with an
    integer exactly.  A boolean is an integer; other values cannot be
    compared with a number. *)
Definition is_expired (now : Q) (self : AuthContext) : result bool :=
  if negb (truthy (expires_at self)) then Ok false
  else
    match expires_at self with
    | PInt z => Ok (negb (Qle_bool now (inject_Z z)))
    | PBool b => Ok (negb (Qle_bool now (inject_Z (if b then 1 else 0))))
    | _ => Raise (TypeError "is_expired")
    end.

(** [ResponseModel]. *)
Record ResponseModel := {
  success : pyval;
  data : pyval;
  error : pyval;
  request_id : pyval
}.

(** [ResponseModel.to_dict]: [data] is kept unless it is [None], [error]
    and [request_id] are kept when they are truthy. *)
Definition response_to_dict (self : ResponseModel) : gmap string pyval :=
  let result : gmap string pyval := {[ "success" := success self ]} in
  let result := match data self with
                | PNone => result
                | v => <["data" := v]> result
                end in
  let result := if truthy (error self) then <["error" := error self]> result
                else result in
  let result := if truthy (request_id self) then <["requestId" := request_id self]> result
                else result in
  result.

End models.

Module utils.
Import models.

(** The PyJWT entry point the code calls:
    [jwt.decode(token, key, algorithms=["HS256"])] returns the claims or
    raises. *)
Definition decoder := string -> string -> result (gmap string pyval).

(** [validate_token].  [environ] is the process environment. *)
Definition validate_token
    (jwt_decode : decoder) (environ : gmap string string) (token : string)
    : result AuthContext :=
  let secret_key := get_default environ "JWT_SECRET" "your-secret-key" in
  match (payload ← jwt_decode token secret_key;
         sub ← getitem payload "sub";
         mret (make sub
                    (get_default payload "email" PNone)
                    (get_default payload "roles" (PList []))
                    (get_default payload "exp" PNone))) with
  | Ok auth => Ok auth
  | Raise (ExpiredSignatureError _) => Raise (InvalidTokenError "Token has expired")
  | Raise (InvalidTokenError msg) => Raise (InvalidTokenError msg)
  | Raise e => Raise e
  end.

Record Statement := {
  Action : string;
  Effect : string;
  Resource : string
}.

Record PolicyDocument := {
  Version : string;
  Statements : list Statement
}.

(** The dictionary [create_policy] returns; [context] is [None] when the
    key is not set. *)
Record Policy := {
  principalId : pyval;
  policyDocument : PolicyDocument;
  context : option (gmap string string)
}.

(** [create_policy]. *)
Definition create_policy
    (principal_id : pyval) (effect resource : string)
    (ctx : option (gmap string pyval)) : Policy :=
  let policy :=
    {| principalId := principal_id;
       policyDocument :=
         {| Version := "2012-10-17";
            Statements := [ {| Action := "execute-api:Invoke";
                               Effect := effect;
                               Resource := resource |} ] |};
       context := None |} in
  match ctx with
  | Some c =>
      if decide (c = ∅) then policy
      else {| principalId := principalId policy;
              policyDocument := policyDocument policy;
              context := Some (py_str <$> c) |}
  | None => policy
  end.

(** The dictionary [create_response] returns. *)
Record Response := {
  statusCode : Z;
  headers : gmap string string;
  body : string
}.

Definition default_headers : gmap string string :=
  {[ "Content-Type" := "application/json";
     "Access-Control-Allow-Origin" := "*" ]}.

(** [create_response].  [json_dumps] is [json.dumps]; [headers or {...}]
    takes the defaults for [None] and for an empty dictionary. *)
Definition create_response
    (json_dumps : pyval -> string) (status_code : Z) (body : pyval)
    (hdrs : option (gmap string string)) : Response :=
  {| statusCode := status_code;
     headers := match hdrs with
                | Some h => if decide (h = ∅) then default_headers else h
                | None => default_headers
                end;
     body := match body with
             | PStr s => s
             | _ => json_dumps body
             end |}.

End utils.

(* ===================================================================== *)
(** * lambdas/authorizer/handler.py                                       *)
(* ===================================================================== *)

Module handler.
Import models utils.

(** What the handler prints; the caller of the function does not see
    it. *)
Inductive log_entry :=
| LogEvent (event : gmap string string)
| LogError (e : exn).

(** [lambda_handler].  The event is the TOKEN authorizer event of the API
    gateway, a mapping with string values. *)
Definition lambda_handler
    (jwt_decode : decoder) (environ : gmap string string)
    (event : gmap string string) : list log_entry * result Policy :=
  let log := [LogEvent event] in
  let token := str_replace "Bearer " "" (get_default event "authorizationToken" "") in
  if String.eqb token "" then (log, Raise (Exception "Unauthorized"))
  else
    match (auth_context ← validate_token jwt_decode environ token;
           resource ← getitem event "methodArn";
           ctx ← to_dict auth_context;
           mret (create_policy (user_id auth_context) "Allow" resource (Some ctx))) with
    | Ok policy => (log, Ok policy)
    | Raise e => ((log ++ [LogError e])%list, Raise (Exception "Unauthorized"))
    end.

End handler.

(* ===================================================================== *)
(** * lambdas/api_handler/src/api_handler/handler.py                      *)
(* ===================================================================== *)

Module api_handler.
Import utils.

(** The Lambda context object, of which the handler reads one field. *)
Record LambdaContext := { aws_request_id : string }.

Inductive log_entry :=
| LogEvent (event : gmap string pyval)
| LogError (e : exn).

(** [v.get(k, default)] on a value that came out of the event: only a
    mapping has the method. *)
Definition py_get (v : pyval) (k : string) (dflt : pyval) : result pyval :=
  match v with
  | PDict kvs => Ok (default dflt (assoc k kvs))
  | _ => Raise (AttributeError "get")
  end.

(** [lambda_handler]. *)
Definition lambda_handler
    (json_dumps : pyval -> string)
    (event : gmap string pyval) (context : LambdaContext)
    : list log_entry * Response :=
  let log := [LogEvent event] in
  match (auth_context ← py_get (get_default event "requestContext" (PDict []))
                               "authorizer" (PDict []);
         user_id ← py_get auth_context "userId" (PStr "unknown");
         let response_data :=
           PDict [("message", PStr "Hello from Lambda!");
                  ("userId", user_id);
                  ("timestamp", PStr (aws_request_id context))] in
         mret (create_response json_dumps 200 response_data None)) with
  | Ok response => (log, response)
  | Raise e =>
      ((log ++ [LogError e])%list,
       create_response json_dumps 500
         (PDict [("error", PStr "Internal server error")]) None)
  end.

End api_handler.

(* ===================================================================== *)
(** * The stack graph builder                                             *)
(* ===================================================================== *)

Module graph_builder.

(** Modelled from the spec: the stack specification handed to the graph
    builder, [{kind, inputs, dependsOn: [ids]}] with the identifier of the
    unit.  The sources have no such record: [app.py] constructs three
    stacks in a fixed order and calls [add_dependency] of [aws_cdk]. *)
Record StackSpec := {
  spec_id : string;
  kind : string;
  depends_on : list string
}.

(** Modelled from the spec: the error of section 7 that aborts graph
    construction. *)
Inductive build_error := CyclicDependency.

(** Modelled from the spec: a unit is ready for emission once all its
    dependencies have been emitted, that is, once none of the identifiers
    it depends on is the identifier of a unit still waiting. *)
Definition ready (waiting : list string) (u : StackSpec) : bool :=
  forallb (fun d => negb (bool_decide (d ∈ waiting))) (depends_on u).

(** Modelled from the spec: the first pending unit that is ready, and the
    pending units without it. *)
Fixpoint pick (waiting : list string) (pending : list StackSpec)
    : option (StackSpec * list StackSpec) :=
  match pending with
  | [] => None
  | u :: rest =>
      if ready waiting u then Some (u, rest)
      else match pick waiting rest with
           | Some (v, rest') => Some (v, u :: rest')
           | None => None
           end
  end.

(** Modelled from the spec: the emission loop of the stack graph builder,
    which the sources leave to [aws_cdk].  One unit is emitted per round;
    when units are pending and none is ready, the edges among them form a
    cycle and the builder rejects the input. *)
Fixpoint emit_units (rounds : nat) (emitted pending : list StackSpec)
    : build_error + list StackSpec :=
  match rounds with
  | O => inr emitted
  | S n =>
      match pick (map spec_id pending) pending with
      | Some (u, rest) => emit_units n (emitted ++ [u]) rest
      | None => inl CyclicDependency
      end
  end.

(** Modelled from the spec: the stack graph builder,
    [build(specs) -> plan], the units in dependency order or
    [CyclicDependency]. *)
Definition build (specs : list StackSpec) : build_error + list StackSpec :=
  emit_units (length specs) [] specs.

(** The edge relation on identifiers: [a] depends on [b]. *)
Definition edge (specs : list StackSpec) (a b : string) : Prop :=
  exists u, u ∈ specs /\ spec_id u = a /\ b ∈ depends_on u.

Definition cyclic (specs : list StackSpec) : Prop :=
  exists a, tc (edge specs) a a.

(** Every unit comes after all the units it depends on. *)
Definition dependency_order (plan : list StackSpec) : Prop :=
  forall i j u v d,
    plan !! i = Some u -> d ∈ depends_on u ->
    plan !! j = Some v -> spec_id v = d -> j < i.

(** The topology [app.py] declares: the layer stack, the compute stack
    that depends on it, the edge-proxy stack that depends on the compute
    stack. *)
Definition reference_topology (company_code env : string) : list StackSpec :=
  let id purpose := company_code +:+ "-" +:+ env +:+ "-" +:+ purpose +:+ "-stack" in
  [ {| spec_id := id "layer"; kind := "layer"; depends_on := [] |};
    {| spec_id := id "lambda"; kind := "compute"; depends_on := [id "layer"] |};
    {| spec_id := id "traefik"; kind := "edge-proxy"; depends_on := [id "lambda"] |} ].

End graph_builder.

(* ===================================================================== *)
(** * Vocabulary of the properties                                        *)
(* ===================================================================== *)

Section vocabulary.
Import base_stack validate_tags.

(** The tags every stack gets, and the tags of the two special
    environments. *)
Definition mandatory_actions
    (id : string) (cfg : gmap string pyval) (env project owner cost : pyval)
    (today : string) : list action :=
  [ TagAdded id "Environment" env;
    TagAdded id "Project" project;
    TagAdded id "Owner" owner;
    TagAdded id "CostCenter" cost;
    TagAdded id "ManagedBy" (PStr "cdk");
    TagAdded id "CreatedDate" (PStr today);
    TagAdded id "DataClassification"
      (get_default cfg "data_classification" (PStr "internal")) ].


(** The environment-specific branch of [_apply_standard_tags]. *)
Definition conditional_tags
    (id : string) (cfg : gmap string pyval) (env : pyval) : deploy unit :=
  if eq_str env "prd" then
    tags_add id "SLA" (get_default cfg "sla" (PStr "99.9"));;
    tags_add id "CriticalityLevel" (get_default cfg "criticality" (PStr "high"))
  else if eq_str env "dev" then
    tags_add id "AutoShutdown" (PStr "true");;
    tags_add id "Purpose" (PStr "development")
  else
    mret tt.

Definition is_str (v : pyval) : bool :=
  match v with PStr _ => true | _ => false end.

(** A library that accepts every call, for the examples. *)
Definition accepting : library := fun _ _ => Ok tt.

(** A configuration without an environment, used below. *)
Definition config_without_environment : gmap string pyval :=
  {[ "company_code" := PStr "acme";
     "region" := PStr "us-east-1";
     "project_name" := PStr "lambda-monorepo";
     "owner" := PStr "platform-team";
     "cost_center" := PStr "ENG-001" ]}.


(** The four checks of [validate_tags], one list of messages each. *)
Definition missing_errors
    (iter_set : gset string -> list string) (tags : gmap string string)
    : list string :=
  if decide (mandatory_tags ∖ dom tags = ∅) then []
  else ["Missing mandatory tags: " +:+ join ", " (iter_set (mandatory_tags ∖ dom tags))].

Definition environment_errors (tags : gmap string string) : list string :=
  match tags !! "Environment" with
  | Some v => if decide (v ∈ valid_environments) then []
              else ["Invalid Environment tag: " +:+ v]
  | None => []
  end.

Definition classification_errors (tags : gmap string string) : list string :=
  match tags !! "DataClassification" with
  | Some v => if decide (v ∈ valid_data_classifications) then []
              else ["Invalid DataClassification: " +:+ v]
  | None => []
  end.

Definition date_errors (tags : gmap string string) : list string :=
  match tags !! "CreatedDate" with
  | Some v => if is_ok (strptime_ymd v) then []
              else ["Invalid CreatedDate format: " +:+ v]
  | None => []
  end.

(** A complete configuration for a staging stack, used below. *)
Definition staging_config : gmap string pyval :=
  {[ "company_code" := PStr "acme";
     "region" := PStr "us-east-1";
     "environment" := PStr "stg";
     "project_name" := PStr "lambda-monorepo";
     "owner" := PStr "platform-team";
     "cost_center" := PStr "ENG-001" ]}.

(** The token the handler extracts from an event. *)
Definition bearer_token (event : gmap string string) : string :=
  str_replace "Bearer " "" (get_default event "authorizationToken" "").

(** A decoder for the examples: one token it accepts, one that has
    expired, and every other token malformed. *)
Definition sample_decoder : utils.decoder := fun token key =>
  if String.eqb token "valid-token" then
    Ok {[ "sub" := PStr "user123";
          "roles" := PList [PStr "admin"; PStr "ops"];
          "exp" := PInt 1700000000 ]}
  else if String.eqb token "expired-token" then
    Raise (ExpiredSignatureError "Signature has expired")
  else Raise (InvalidTokenError "Not enough segments").

(** The event of the handler's tests, with a given token. *)
Definition api_gateway_event (authorization : string) : gmap string string :=
  {[ "type" := "TOKEN";
     "authorizationToken" := authorization;
     "methodArn" := "arn:aws:execute-api:us-east-1:123456789012:api-id/stage/GET/resource" ]}.

(** The two inputs of the specification's example. *)
Definition chain_specs : list graph_builder.StackSpec :=
  [ {| graph_builder.spec_id := "A"; graph_builder.kind := "layer";
       graph_builder.depends_on := [] |};
    {| graph_builder.spec_id := "B"; graph_builder.kind := "compute";
       graph_builder.depends_on := ["A"] |};
    {| graph_builder.spec_id := "C"; graph_builder.kind := "edge-proxy";
       graph_builder.depends_on := ["B"] |} ].

Definition loop_specs : list graph_builder.StackSpec :=
  [ {| graph_builder.spec_id := "A"; graph_builder.kind := "layer";
       graph_builder.depends_on := ["B"] |};
    {| graph_builder.spec_id := "B"; graph_builder.kind := "compute";
       graph_builder.depends_on := ["A"] |} ].

(** The units emitted so far depend on no unit that is still pending. *)
Definition settled (emitted pending : list graph_builder.StackSpec) : Prop :=
  forall u d, u ∈ emitted -> d ∈ graph_builder.depends_on u ->
              d ∉ map graph_builder.spec_id pending.

(** A tag mapping that meets the tagging strategy. *)
Definition compliant (tags : gmap string string) : Prop :=
  mandatory_tags ⊆ dom tags /\
  (forall v, tags !! "Environment" = Some v -> v ∈ valid_environments) /\
  (forall v, tags !! "DataClassification" = Some v -> v ∈ valid_data_classifications) /\
  (forall v, tags !! "CreatedDate" = Some v -> is_ok (strptime_ymd v) = true).

(** The names of the resources a run declared, in order. *)
Definition declared_names (t : list action) : list string :=
  omap (fun a => match a with ResourceDeclared _ _ name => Some name | _ => None end) t.

(** The body of a successful answer of the API handler. *)
Definition greeting (user_id : pyval) (context : api_handler.LambdaContext) : pyval :=
  PDict [("message", PStr "Hello from Lambda!");
         ("userId", user_id);
         ("timestamp", PStr (api_handler.aws_request_id context))].

(** The body of its answer after an exception. *)
Definition internal_error : pyval := PDict [("error", PStr "Internal server error")].

Definition is_mapping (v : pyval) : bool :=
  match v with PDict _ => true | _ => false end.

(** A decoder that accepts one token, whose claims list a role that is
    a number. *)
Definition numeric_roles_decoder : utils.decoder := fun token key =>
  if String.eqb token "numeric-roles" then
    Ok {[ "sub" := PStr "user123";
          "roles" := PList [PInt 1];
          "exp" := PInt 1700000000 ]}
  else Raise (InvalidTokenError "Not enough segments").

(** Three units of which two bear the same identifier, with a cycle
    between the identifiers; and a unit that depends on an identifier no
    unit bears. *)
Definition repeated_specs : list graph_builder.StackSpec :=
  [ {| graph_builder.spec_id := "A"; graph_builder.kind := "layer";
       graph_builder.depends_on := ["B"] |};
    {| graph_builder.spec_id := "B"; graph_builder.kind := "compute";
       graph_builder.depends_on := [] |};
    {| graph_builder.spec_id := "B"; graph_builder.kind := "edge-proxy";
       graph_builder.depends_on := ["A"] |} ].

Definition dangling_specs : list graph_builder.StackSpec :=
  [ {| graph_builder.spec_id := "A"; graph_builder.kind := "layer";
       graph_builder.depends_on := ["Z"] |} ].

End vocabulary.

(* ===================================================================== *)
(** * Properties: configuration merge                                     *)
(* ===================================================================== *)

Section merge_facts.
Import app.
Implicit Types defaults overrides : gmap string pyval.

Lemma merge_lookup_override defaults overrides k v :
  overrides !! k = Some v -> merge_config defaults overrides !! k = Some v.
Proof. intros H. unfold merge_config. by apply lookup_union_Some_l. Qed.

Lemma merge_lookup_default defaults overrides k :
  overrides !! k = None ->
  merge_config defaults overrides !! k = defaults !! k.
Proof. intros H. unfold merge_config. by apply lookup_union_r. Qed.

Lemma merge_disjoint_union defaults overrides :
  dom defaults ## dom overrides ->
  merge_config defaults overrides = defaults ∪ overrides.
Proof.
  intros H. unfold merge_config. apply map_union_comm.
  apply map_disjoint_dom. set_solver.
Qed.

Lemma merge_dom defaults overrides :
  dom (merge_config defaults overrides) = dom defaults ∪ dom overrides.
Proof. unfold merge_config. rewrite dom_union_L. apply (comm_L (∪)). Qed.

End merge_facts.

(** C5.  The configuration merge of [app.py] is a shallow key-level
    override.  When the two documents share no key the result is the
    union of both mappings; a key of the overrides carries the overrides'
    value; a key only the defaults have keeps the defaults' value; and
    two nested mappings under one key are not merged: the overrides'
    mapping replaces the defaults' as a whole. *)
Theorem merge_config_shallow_override (defaults overrides : gmap string pyval) :
  (dom defaults ## dom overrides ->
     app.merge_config defaults overrides = defaults ∪ overrides /\
     app.merge_config defaults overrides = overrides ∪ defaults /\
     dom (app.merge_config defaults overrides) = dom defaults ∪ dom overrides) /\
  (forall k v, overrides !! k = Some v ->
     app.merge_config defaults overrides !! k = Some v) /\
  (forall k, overrides !! k = None ->
     app.merge_config defaults overrides !! k = defaults !! k) /\
  (forall k inner inner', defaults !! k = Some (PDict inner) ->
     overrides !! k = Some (PDict inner') ->
     app.merge_config defaults overrides !! k = Some (PDict inner')).
Proof.
  repeat split.
  - by apply merge_disjoint_union.
  - apply merge_dom.
  - apply merge_lookup_override.
  - apply merge_lookup_default.
  - intros k inner inner' _ H. by apply merge_lookup_override.
Qed.

(** The theorem at two overlapping documents with a nested mapping. *)
Lemma merge_config_shallow_override_witness :
  let defaults : gmap string pyval :=
    {[ "region" := PStr "us-east-1";
       "lambda" := PDict [("timeout_seconds", PInt 30); ("memory_size", PInt 128)] ]} in
  let overrides : gmap string pyval :=
    {[ "lambda" := PDict [("memory_size", PInt 512)] ]} in
  app.merge_config defaults overrides !! "lambda"
    = Some (PDict [("memory_size", PInt 512)]) /\
  app.merge_config defaults overrides !! "region" = Some (PStr "us-east-1") /\
  app.merge_config ({[ "region" := PStr "us-east-1" ]} : gmap string pyval)
                   {[ "owner" := PStr "team" ]}
    = {[ "region" := PStr "us-east-1" ]} ∪ {[ "owner" := PStr "team" ]}.
Proof.
  intros defaults overrides. split; [|split].
  - destruct (merge_config_shallow_override defaults overrides)
      as (_ & Hover & _).
    apply Hover. reflexivity.
  - destruct (merge_config_shallow_override defaults overrides)
      as (_ & _ & Hdflt & _).
    rewrite Hdflt; reflexivity.
  - destruct (merge_config_shallow_override
                {[ "region" := PStr "us-east-1" ]} {[ "owner" := PStr "team" ]})
      as (Hdisj & _).
    apply Hdisj.
    rewrite !dom_singleton_L. apply disjoint_singleton_l.
    rewrite elem_of_singleton. discriminate.
Defined.

(* ===================================================================== *)
(** * Properties: region codes and resource names                         *)
(* ===================================================================== *)

Section naming_facts.
Import base_stack.

Lemma slice_to_prefix n s : exists rest, s = slice_to n s +:+ rest.
Proof.
  revert s. induction n as [|n IH]; intros s.
  - exists s. by destruct s.
  - destruct s as [|c s]; [by exists ""|].
    destruct (IH s) as [rest Hrest]. exists rest.
    change (String c s = String c (slice_to n s +:+ rest)). by f_equal.
Qed.

Lemma slice_to_length n s : String.length (slice_to n s) = min n (String.length s).
Proof.
  revert s. induction n as [|n IH]; intros [|c s]; simpl; auto.
Qed.

Lemma get_region_code_mapped r code :
  region_map !! r = Some code -> _get_region_code (PStr r) = Ok code.
Proof. intros H. unfold _get_region_code, get_default. by rewrite H. Qed.

Lemma get_region_code_unmapped r :
  region_map !! r = None -> _get_region_code (PStr r) = Ok (slice_to 4 r).
Proof. intros H. unfold _get_region_code, get_default. by rewrite H. Qed.

Lemma get_resource_name_inj self service resource_type identifier identifier' :
  get_resource_name self service resource_type identifier
    = get_resource_name self service resource_type identifier' ->
  identifier = identifier'.
Proof.
  unfold get_resource_name. intros H.
  repeat (apply (inj (String.app _)) in H).
  exact H.
Qed.

End naming_facts.

(** C8.  [_get_region_code] returns the mapped short code for every
    region of the fixed table, and for every region that is not in the
    table its first four characters (a prefix of the region, the whole of
    it when it has fewer than four characters), never an error; the
    unmapped region sa-east-1 gives sa-e. *)
Theorem get_region_code_table_or_prefix (r : string) :
  (forall code, base_stack.region_map !! r = Some code ->
     base_stack._get_region_code (PStr r) = Ok code) /\
  (base_stack.region_map !! r = None ->
     base_stack._get_region_code (PStr r) = Ok (slice_to 4 r) /\
     (exists rest, r = slice_to 4 r +:+ rest) /\
     String.length (slice_to 4 r) = min 4 (String.length r)) /\
  base_stack._get_region_code (PStr "us-east-1") = Ok "use1" /\
  base_stack._get_region_code (PStr "us-west-2") = Ok "usw2" /\
  base_stack._get_region_code (PStr "eu-west-1") = Ok "euw1" /\
  base_stack._get_region_code (PStr "eu-central-1") = Ok "euc1" /\
  base_stack._get_region_code (PStr "ap-southeast-1") = Ok "apse1" /\
  base_stack._get_region_code (PStr "sa-east-1") = Ok "sa-e".
Proof.
  split; [|split].
  - intros code. apply get_region_code_mapped.
  - intros H. split; [by apply get_region_code_unmapped|].
    split; [apply slice_to_prefix | apply slice_to_length].
  - repeat split; reflexivity.
Qed.

(** The theorem at a region of the table and at one outside it. *)
Lemma get_region_code_table_or_prefix_witness :
  base_stack._get_region_code (PStr "eu-west-1") = Ok "euw1" /\
  base_stack._get_region_code (PStr "sa-east-1") = Ok (slice_to 4 "sa-east-1").
Proof.
  split.
  - destruct (get_region_code_table_or_prefix "eu-west-1") as [Hmapped _].
    apply Hmapped. reflexivity.
  - destruct (get_region_code_table_or_prefix "sa-east-1") as (_ & Hunmapped & _).
    apply Hunmapped. reflexivity.
Defined.

(** C9.  [get_resource_name] is deterministic and injective in the
    identifier: equal inputs give the same string, and on one stack, with
    service and resource type fixed, two distinct identifiers give two
    distinct names. *)
Theorem get_resource_name_deterministic_injective
    (self self' : base_stack.BaseStack)
    (service service' resource_type resource_type' identifier identifier' : string) :
  (self = self' -> service = service' -> resource_type = resource_type' ->
   identifier = identifier' ->
   base_stack.get_resource_name self service resource_type identifier
     = base_stack.get_resource_name self' service' resource_type' identifier') /\
  (identifier <> identifier' ->
   base_stack.get_resource_name self service resource_type identifier
     <> base_stack.get_resource_name self service resource_type identifier').
Proof.
  split.
  - by intros -> -> -> ->.
  - intros Hne Heq. apply Hne. by eapply get_resource_name_inj.
Qed.

(** The theorem on the layer stack's names. *)
Lemma get_resource_name_deterministic_injective_witness :
  let self := {| base_stack.construct_id := "acme-dev-layer-stack";
                 base_stack.config := ∅;
                 base_stack.region := PStr "us-east-1";
                 base_stack.environment := PStr "dev";
                 base_stack.company_code := PStr "acme";
                 base_stack.region_code := "use1" |} in
  base_stack.get_resource_name self "common" "layer" "utils"
    <> base_stack.get_resource_name self "common" "layer" "tools" /\
  base_stack.get_resource_name self "common" "layer" "utils"
    = base_stack.get_resource_name self "common" "layer" "utils".
Proof.
  intros self. split.
  - destruct (get_resource_name_deterministic_injective
                self self "common" "common" "layer" "layer" "utils" "tools")
      as [_ Hinj].
    apply Hinj. discriminate.
  - destruct (get_resource_name_deterministic_injective
                self self "common" "common" "layer" "layer" "utils" "utils")
      as [Hdet _].
    exact (Hdet eq_refl eq_refl eq_refl eq_refl).
Defined.

(* ===================================================================== *)
(** * Properties: the standard tags                                       *)
(* ===================================================================== *)

Section tagging_facts.
Import base_stack.

Lemma is_str_true v : is_str v = true <-> exists s, v = PStr s.
Proof.
  split; [destruct v; try discriminate; eauto | by intros [s ->]].
Qed.


Lemma tags_add_other id k v :
  is_str v = false -> tags_add id k v = lift (Raise (TypeError "value")).
Proof. by destruct v. Qed.

Lemma tags_of_app id t1 t2 :
  tags_of id (t1 ++ t2)
    = foldl (fun m a =>
               match a with
               | TagAdded s k v => if String.eqb s id then <[k:=v]> m else m
               | _ => m
               end) (tags_of id t1) t2.
Proof. unfold tags_of. apply foldl_app. Qed.


Lemma tags_of_mandatory id cfg env project owner cost today :
  tags_of id (mandatory_actions id cfg env project owner cost today)
    = <["DataClassification" := get_default cfg "data_classification" (PStr "internal")]>
      (<["CreatedDate" := PStr today]>
      (<["ManagedBy" := PStr "cdk"]>
      (<["CostCenter" := cost]>
      (<["Owner" := owner]>
      (<["Project" := project]>
      (<["Environment" := env]> ∅)))))).
Proof.
  unfold tags_of, mandatory_actions. cbn [foldl].
  rewrite String.eqb_refl. reflexivity.
Qed.



(** With string values for the first six tags, the mandatory tags are
    applied and the environment-specific branch runs. *)
Lemma apply_standard_tags_run id cfg env today project owner cost :
  cfg !! "project_name" = Some project ->
  cfg !! "owner" = Some owner ->
  cfg !! "cost_center" = Some cost ->
  is_str env = true -> is_str project = true ->
  is_str owner = true -> is_str cost = true ->
  is_str (get_default cfg "data_classification" (PStr "internal")) = true ->
  _apply_standard_tags id cfg env today
    = Deploy (mandatory_actions id cfg env project owner cost today
                ++ trace (conditional_tags id cfg env))
             (outcome (conditional_tags id cfg env)).
Proof.
  intros Hp Ho Hc [e ->]%is_str_true [p ->]%is_str_true [o ->]%is_str_true
    [c ->]%is_str_true [dc Hdc]%is_str_true.
  unfold _apply_standard_tags, getitem, mandatory_actions. rewrite Hp, Ho, Hc, Hdc.
  fold (conditional_tags id cfg (PStr e)).
  cbn [mbind deploy_bind lift emit tags_add outcome trace List.app].
  by destruct (outcome (conditional_tags id cfg (PStr e))).
Qed.


End tagging_facts.




Section clock_facts.
Import base_stack.

Ltac stop :=
  cbn [mbind deploy_bind lift emit tags_add outcome trace List.app tags_of foldl];
  rewrite ?String.eqb_refl, ?lookup_insert_ne, ?lookup_empty by discriminate;
  by repeat split; try intros [??].

(** The clock reaches the tags through [CreatedDate] only. *)
Lemma standard_tags_clock id cfg env today today' :
  outcome (_apply_standard_tags id cfg env today)
    = outcome (_apply_standard_tags id cfg env today') /\
  delete "CreatedDate" (standard_tags id cfg env today)
    = delete "CreatedDate" (standard_tags id cfg env today') /\
  (is_Some (standard_tags id cfg env today !! "CreatedDate") ->
   standard_tags id cfg env today !! "CreatedDate" = Some (PStr today)).
Proof.
  unfold standard_tags.
  destruct env as [| | |e| |];
    try (unfold _apply_standard_tags; stop).
  destruct (cfg !! "project_name") as [[| | |p| |]|] eqn:Hp;
    try (unfold _apply_standard_tags, getitem; rewrite Hp; stop).
  destruct (cfg !! "owner") as [[| | |o| |]|] eqn:Ho;
    try (unfold _apply_standard_tags, getitem; rewrite Hp, Ho; stop).
  destruct (cfg !! "cost_center") as [[| | |c| |]|] eqn:Hc;
    try (unfold _apply_standard_tags, getitem; rewrite Hp, Ho, Hc; stop).
  destruct (get_default cfg "data_classification" (PStr "internal"))
    as [| | |dc| |] eqn:Hdc;
    try (unfold _apply_standard_tags, getitem; rewrite Hp, Ho, Hc, Hdc; stop).
  rewrite !(apply_standard_tags_run _ _ _ _ _ _ _ Hp Ho Hc) by (by rewrite ?Hdc).
  set (env := PStr e).
  cbn [outcome trace]. split; [reflexivity|].
  rewrite !tags_of_app, !tags_of_mandatory.
  assert (Hfold : forall (t : list action) (m m' : gmap string pyval),
            Forall (fun a => forall s v, a <> TagAdded s "CreatedDate" v) t ->
            delete "CreatedDate" m = delete "CreatedDate" m' ->
            m !! "CreatedDate" = Some (PStr today) ->
            let f := fun m a =>
                       match a with
                       | TagAdded s k v => if String.eqb s id then <[k:=v]> m else m
                       | _ => m
                       end in
            delete "CreatedDate" (foldl f m t) = delete "CreatedDate" (foldl f m' t) /\
            foldl f m t !! "CreatedDate" = Some (PStr today)).
  { induction t as [|a t IH]; intros m m' Ht Hm Hd; [done|].
    apply Forall_cons in Ht as [Ha Ht]. cbn [foldl]. apply IH; [done|..].
    - destruct a; try done. destruct (String.eqb stack id); [|done].
      assert (key <> "CreatedDate") by (intros ->; by eapply Ha).
      by rewrite !delete_insert_ne, Hm.
    - destruct a; try done. destruct (String.eqb stack id); [|done].
      assert (key <> "CreatedDate") by (intros ->; by eapply Ha).
      by rewrite lookup_insert_ne. }
  edestruct (Hfold (trace (conditional_tags id cfg env))) as [H1 H2]; last first.
  { split; [exact H1|]. intros _. exact H2. }
  - rewrite !(lookup_insert_ne _ _ "CreatedDate") by discriminate.
    apply lookup_insert_eq.
  - rewrite !(delete_insert_ne _ "CreatedDate") by discriminate.
    by rewrite !delete_insert_eq.
  - unfold conditional_tags.
    destruct (eq_str env "prd"); [|destruct (eq_str env "dev")].
    + destruct (get_default cfg "sla" (PStr "99.9"));
        destruct (get_default cfg "criticality" (PStr "high"));
        cbn; repeat constructor; discriminate.
    + cbn; repeat constructor; discriminate.
    + constructor.
Qed.

End clock_facts.

(* ===================================================================== *)
(** * Properties: missing configuration                                   *)
(* ===================================================================== *)

Section missing_configuration.
Import base_stack app.

Lemma getitem_Some {V} (d : gmap string V) k v :
  d !! k = Some v -> getitem d k = Ok v.
Proof. intros H. unfold getitem. by rewrite H. Qed.

Lemma getitem_None {V} (d : gmap string V) k :
  d !! k = None -> getitem d k = Raise (KeyError k).
Proof. intros H. unfold getitem. by rewrite H. Qed.

(** Every run of [BaseStack.__init__]: the constructor of [Stack] may
    refuse the identifier; after it, the configuration is read for the
    environment, and the assignment of the value raises. *)
Lemma base_init_run lib id cfg rv today :
  base_stack.__init__ lib id cfg rv today
    = match lib "Stack" [PStr id] with
      | Raise e => Deploy [] (Raise e)
      | Ok _ =>
          match cfg !! "environment" with
          | None => Deploy [StackConstructed id] (Raise (KeyError "environment"))
          | Some _ => Deploy [StackConstructed id] (Raise (AttributeError "environment"))
          end
      end.
Proof.
  unfold base_stack.__init__, call, getitem, set_environment.
  destruct (lib "Stack" [PStr id]) as [[]|e]; [|reflexivity].
  by destruct (cfg !! "environment").
Qed.

(** The run of the assembly, for every library, environment and
    configuration. *)
Lemma assemble_run lib account env today cfg :
  assemble lib account env today cfg
    = match cfg !! "company_code" with
      | None => Deploy [] (Raise (KeyError "company_code"))
      | Some cc =>
          match cfg !! "region" with
          | None => Deploy [] (Raise (KeyError "region"))
          | Some region =>
              match lib "Environment" [account; region] with
              | Raise e => Deploy [] (Raise e)
              | Ok _ =>
                  match lib "Stack" [PStr (stack_id cc env "layer")] with
                  | Raise e => Deploy [] (Raise e)
                  | Ok _ =>
                      match cfg !! "environment" with
                      | None =>
                          Deploy [StackConstructed (stack_id cc env "layer")]
                                 (Raise (KeyError "environment"))
                      | Some _ =>
                          Deploy [StackConstructed (stack_id cc env "layer")]
                                 (Raise (AttributeError "environment"))
                      end
                  end
              end
          end
      end.
Proof.
  unfold assemble, layer_stack.__init__, getitem.
  destruct (cfg !! "company_code") as [cc|]; [|reflexivity].
  destruct (cfg !! "region") as [region|]; [|reflexivity].
  cbn [mbind deploy_bind lift outcome trace List.app]. unfold call.
  destruct (lib "Environment" [account; region]) as [[]|e];
    cbn [mbind deploy_bind lift outcome trace List.app]; [|reflexivity].
  rewrite base_init_run.
  destruct (lib "Stack" [PStr (stack_id cc env "layer")]) as [[]|e];
    cbn [mbind deploy_bind lift outcome trace List.app]; [|reflexivity].
  by destruct (cfg !! "environment").
Qed.

End missing_configuration.

(** C1, as the code has it.  Nothing checks the required keys when the
    configuration is merged, and a missing key is reported by the
    [KeyError] of the statement that reads it.  Without company_code, and
    with it but without region, [app.py] fails before any stack is
    constructed.  Without environment, when the library accepts the
    deployment environment and the identifier of the first stack, the run
    fails in [BaseStack.__init__] after that stack has been constructed.
    The keys project_name, owner and cost_center are read by
    [_apply_standard_tags] alone: run with string values, the method
    raises the [KeyError] of the first of them that is absent, after the
    tags before it have been added. *)
Theorem missing_required_key_raises_key_error
    (lib : library) (environ : gmap string string) (today : string)
    (defaults overrides : gmap string pyval) :
  (app.merge_config defaults overrides !! "company_code" = None ->
     app.main lib environ today defaults overrides
       = Deploy [] (Raise (KeyError "company_code"))) /\
  (is_Some (app.merge_config defaults overrides !! "company_code") ->
   app.merge_config defaults overrides !! "region" = None ->
     app.main lib environ today defaults overrides
       = Deploy [] (Raise (KeyError "region"))) /\
  (forall cc region,
     app.merge_config defaults overrides !! "company_code" = Some cc ->
     app.merge_config defaults overrides !! "region" = Some region ->
     app.merge_config defaults overrides !! "environment" = None ->
     lib "Environment" [app.getenv environ "CDK_DEFAULT_ACCOUNT"; region] = Ok tt ->
     lib "Stack" [PStr (app.stack_id cc (get_default environ "ENVIRONMENT" "dev") "layer")]
       = Ok tt ->
     app.main lib environ today defaults overrides
       = Deploy [StackConstructed
                   (app.stack_id cc (get_default environ "ENVIRONMENT" "dev") "layer")]
                (Raise (KeyError "environment"))) /\
  (forall id e,
     app.merge_config defaults overrides !! "project_name" = None ->
     base_stack._apply_standard_tags id (app.merge_config defaults overrides) (PStr e) today
       = Deploy [TagAdded id "Environment" (PStr e)] (Raise (KeyError "project_name"))) /\
  (forall id e p,
     app.merge_config defaults overrides !! "project_name" = Some (PStr p) ->
     app.merge_config defaults overrides !! "owner" = None ->
     base_stack._apply_standard_tags id (app.merge_config defaults overrides) (PStr e) today
       = Deploy [TagAdded id "Environment" (PStr e); TagAdded id "Project" (PStr p)]
                (Raise (KeyError "owner"))) /\
  (forall id e p o,
     app.merge_config defaults overrides !! "project_name" = Some (PStr p) ->
     app.merge_config defaults overrides !! "owner" = Some (PStr o) ->
     app.merge_config defaults overrides !! "cost_center" = None ->
     base_stack._apply_standard_tags id (app.merge_config defaults overrides) (PStr e) today
       = Deploy [TagAdded id "Environment" (PStr e); TagAdded id "Project" (PStr p);
                 TagAdded id "Owner" (PStr o)]
                (Raise (KeyError "cost_center"))).
Proof.
  unfold app.main. rewrite assemble_run.
  generalize (app.merge_config defaults overrides) as cfg. intros cfg.
  split; [|split; [|split; [|split; [|split]]]].
  - by intros ->.
  - by intros [cc ->] ->.
  - intros cc region Hcc Hr He Hlib Hstack. rewrite Hcc, Hr. cbv beta iota.
    by rewrite Hlib, Hstack, He.
  - intros id e Hp. unfold base_stack._apply_standard_tags, getitem. by rewrite Hp.
  - intros id e p Hp Ho. unfold base_stack._apply_standard_tags, getitem.
    by rewrite Hp, Ho.
  - intros id e p o Hp Ho Hc. unfold base_stack._apply_standard_tags, getitem.
    by rewrite Hp, Ho, Hc.
Qed.

(** The theorem on the defaults without an environment and no overrides,
    and on a configuration without an owner. *)
Lemma missing_required_key_raises_key_error_witness :
  app.main accepting ∅ "2024-01-15" config_without_environment ∅
    = Deploy [StackConstructed "acme-dev-layer-stack"] (Raise (KeyError "environment")) /\
  outcome (base_stack._apply_standard_tags "acme-stg-layer-stack"
             (app.merge_config (delete "owner" staging_config) ∅) (PStr "stg") "2024-01-15")
    = Raise (KeyError "owner").
Proof.
  split.
  - destruct (missing_required_key_raises_key_error
                accepting ∅ "2024-01-15" config_without_environment ∅)
      as (_ & _ & Henv & _).
    apply (Henv (PStr "acme") (PStr "us-east-1")); reflexivity.
  - destruct (missing_required_key_raises_key_error
                accepting ∅ "2024-01-15" (delete "owner" staging_config) ∅)
      as (_ & _ & _ & _ & Howner & _).
    rewrite (Howner "acme-stg-layer-stack" "stg" "lambda-monorepo"); reflexivity.
Defined.

(** C1, as the specification states it, fails: with the environment
    missing from the configuration the run does not fail before every
    other component, and the error is a [KeyError].  The first stack has
    been constructed when it is raised. *)
Lemma missing_environment_fails_after_construction :
  app.merge_config config_without_environment ∅ !! "environment" = None /\
  app.main accepting ∅ "2024-01-15" config_without_environment ∅
    = Deploy [StackConstructed "acme-dev-layer-stack"] (Raise (KeyError "environment")) /\
  Exists (fun a => is_construction a = true)
    (trace (app.main accepting ∅ "2024-01-15" config_without_environment ∅)).
Proof.
  split; [reflexivity|]. split; [reflexivity|].
  apply Exists_cons_hd. reflexivity.
Qed.

(* ===================================================================== *)
(** * Properties: the tag policy validator                                *)
(* ===================================================================== *)

Section string_facts.

Lemma append_nil_r s : s +:+ "" = s.
Proof.
  induction s as [|c s IH]; [reflexivity|].
  change (String c (s +:+ "") = String c s). by rewrite IH.
Qed.

Lemma append_assoc s t u : (s +:+ t) +:+ u = s +:+ t +:+ u.
Proof.
  induction s as [|c s IH]; [reflexivity|].
  change (String c ((s +:+ t) +:+ u) = String c (s +:+ t +:+ u)). by rewrite IH.
Qed.

Lemma mentions_refl s : mentions s s.
Proof. exists "", "". by rewrite append_nil_r. Qed.

Lemma mentions_prepend p s x : mentions s x -> mentions (p +:+ s) x.
Proof.
  intros (pre & post & ->). exists (p +:+ pre), post. by rewrite append_assoc.
Qed.

Lemma mentions_append s q x : mentions s x -> mentions (s +:+ q) x.
Proof.
  intros (pre & post & ->). exists pre, (post +:+ q).
  by rewrite !append_assoc.
Qed.

Lemma join_mentions sep x l : x ∈ l -> mentions (join sep l) x.
Proof.
  induction l as [|y l IH]; [by intros ?%elem_of_nil|].
  intros Hin. destruct l as [|z l].
  - apply list_elem_of_singleton in Hin as ->. apply mentions_refl.
  - change (mentions (y +:+ sep +:+ join sep (z :: l)) x).
    apply elem_of_cons in Hin as [->|Hin].
    + apply mentions_append, mentions_refl.
    + by apply mentions_prepend, mentions_prepend, IH.
Qed.

End string_facts.

Section validator_facts.
Import validate_tags.

Lemma strptime_ymd_raises s e : strptime_ymd s = Raise e -> exists msg, e = ValueError msg.
Proof.
  unfold strptime_ymd.
  repeat match goal with
         | |- context [match ?x with _ => _ end] => destruct x
         end; intros H; inversion H; eauto.
Qed.

(** [validate_tags] returns, and what it returns is the messages of the
    four checks in order. *)
Lemma validate_tags_run iter_set tags :
  validate_tags iter_set tags
    = Ok (missing_errors iter_set tags ++ environment_errors tags ++
          classification_errors tags ++ date_errors tags)%list.
Proof.
  unfold validate_tags, missing_errors, environment_errors,
    classification_errors, date_errors, contains, getitem.
  destruct (decide (mandatory_tags ∖ dom tags = ∅));
  destruct (tags !! "Environment") as [env|];
  destruct (tags !! "DataClassification") as [dc|];
  destruct (tags !! "CreatedDate") as [cd|];
  repeat (cbn [mbind mret result_bind result_ret List.app];
          try case_decide);
  try contradiction;
  try (destruct (strptime_ymd cd) as [d|err] eqn:Hd;
       [|destruct (strptime_ymd_raises _ _ Hd) as [msg ->]]);
  cbn [mbind mret result_bind result_ret is_ok List.app];
  rewrite ?app_nil_r; reflexivity.
Qed.

Lemma missing_errors_none iter_set tags :
  mandatory_tags ⊆ dom tags -> missing_errors iter_set tags = [].
Proof.
  intros Hsub. unfold missing_errors.
  destruct (decide (mandatory_tags ∖ dom tags = ∅)) as [_|Hne]; [done|].
  exfalso. apply Hne. apply elem_of_equiv_empty_L.
  intros x [Hx Hn]%elem_of_difference. by apply Hn, Hsub.
Qed.

End validator_facts.

Section validator_claims.
Import validate_tags.

(** Python does not fix the order in which a set is iterated; whatever
    the order, each element comes up once. *)
Variable iter_set : gset string -> list string.
Hypothesis iter_set_perm : forall X, iter_set X ≡ₚ elements X.

Lemma missing_errors_mention tags key :
  key ∈ mandatory_tags -> tags !! key = None ->
  exists msg, msg ∈ missing_errors iter_set tags /\ mentions msg key.
Proof.
  intros Hmand Hnone.
  assert (Hin : key ∈ mandatory_tags ∖ dom tags).
  { apply elem_of_difference. split; [done|]. by apply not_elem_of_dom. }
  unfold missing_errors. destruct (decide (mandatory_tags ∖ dom tags = ∅)) as [E|_].
  { rewrite E in Hin. by apply not_elem_of_empty in Hin. }
  eexists. split; [apply list_elem_of_singleton; reflexivity|].
  apply mentions_prepend, join_mentions.
  rewrite (iter_set_perm _). by apply elem_of_elements.
Qed.

(** C7.  [validate_tags] returns a list of violations for every tag
    mapping and never raises; it is a function of the mapping and leaves
    it as it was (the embedding has no statement that writes to it).  A
    mapping without the key Owner yields a violation that mentions Owner;
    a DataClassification outside the enumerated values yields the
    classification violation for that value; and a mapping that has all
    mandatory keys, an enumerated Environment and DataClassification and
    a CreatedDate that parses yields the empty list.  This holds for
    every order in which the set of missing keys is iterated. *)
Theorem validate_tags_reports (tags : gmap string string) :
  (exists errors, validate_tags iter_set tags = Ok errors) /\
  (tags !! "Owner" = None ->
     exists errors msg, validate_tags iter_set tags = Ok errors /\
                        msg ∈ errors /\ mentions msg "Owner") /\
  (forall v, tags !! "DataClassification" = Some v ->
     v ∉ valid_data_classifications ->
     exists errors, validate_tags iter_set tags = Ok errors /\
                    ("Invalid DataClassification: " +:+ v) ∈ errors) /\
  (mandatory_tags ⊆ dom tags ->
   (forall v, tags !! "Environment" = Some v -> v ∈ valid_environments) ->
   (forall v, tags !! "DataClassification" = Some v ->
              v ∈ valid_data_classifications) ->
   (forall v, tags !! "CreatedDate" = Some v -> is_ok (strptime_ymd v) = true) ->
   validate_tags iter_set tags = Ok []).
Proof.
  rewrite validate_tags_run. split; [eauto|]. split; [|split].
  - intros Hnone.
    destruct (missing_errors_mention tags "Owner") as (msg & Hin & Hm);
      [unfold mandatory_tags; set_solver | done |].
    eexists _, msg. split; [reflexivity|]. split; [|done].
    apply elem_of_app. by left.
  - intros v Hv Hbad. eexists. split; [reflexivity|].
    apply elem_of_app. right. apply elem_of_app. right. apply elem_of_app. left.
    unfold classification_errors. rewrite Hv.
    destruct (decide (v ∈ valid_data_classifications)); [contradiction|].
    by apply list_elem_of_singleton.
  - intros Hsub Henv Hdc Hcd. f_equal.
    rewrite (missing_errors_none _ _ Hsub).
    unfold environment_errors, classification_errors, date_errors.
    destruct (tags !! "Environment") as [env|];
      [destruct (decide (env ∈ valid_environments)) as [_|Hn];
       [|exfalso; by apply Hn, Henv]|];
    (destruct (tags !! "DataClassification") as [dc|];
      [destruct (decide (dc ∈ valid_data_classifications)) as [_|Hn];
       [|exfalso; by apply Hn, Hdc]|]);
    (destruct (tags !! "CreatedDate") as [cd|];
      [rewrite (Hcd cd eq_refl)|]); reflexivity.
Qed.

End validator_claims.

(** The theorem with the iteration order of [elements]: the tag set of
    [main] is accepted, and the same set without its owner and with the
    classification top-secret yields the two violations. *)
Lemma validate_tags_reports_witness :
  validate_tags.validate_tags elements validate_tags.test_tags = Ok [] /\
  (exists errors msg,
     validate_tags.validate_tags elements
       (<["DataClassification" := "top-secret"]>
          (delete "Owner" validate_tags.test_tags)) = Ok errors /\
     msg ∈ errors /\ mentions msg "Owner") /\
  (exists errors,
     validate_tags.validate_tags elements
       (<["DataClassification" := "top-secret"]>
          (delete "Owner" validate_tags.test_tags)) = Ok errors /\
     ("Invalid DataClassification: " +:+ "top-secret") ∈ errors).
Proof.
  assert (Hperm : forall X : gset string, elements X ≡ₚ elements X) by reflexivity.
  split; [|split].
  - destruct (validate_tags_reports elements Hperm validate_tags.test_tags)
      as (_ & _ & _ & Hok).
    apply Hok.
    + apply (bool_decide_unpack _). vm_compute. exact I.
    + intros v Hv. vm_compute in Hv. injection Hv as <-.
      apply (bool_decide_unpack _). vm_compute. exact I.
    + intros v Hv. vm_compute in Hv. injection Hv as <-.
      apply (bool_decide_unpack _). vm_compute. exact I.
    + intros v Hv. vm_compute in Hv. injection Hv as <-. reflexivity.
  - destruct (validate_tags_reports elements Hperm
                (<["DataClassification" := "top-secret"]>
                   (delete "Owner" validate_tags.test_tags)))
      as (_ & Howner & _).
    apply Howner. reflexivity.
  - destruct (validate_tags_reports elements Hperm
                (<["DataClassification" := "top-secret"]>
                   (delete "Owner" validate_tags.test_tags)))
      as (_ & _ & Hclass & _).
    apply Hclass; [reflexivity|].
    apply (bool_decide_unpack _). vm_compute. exact I.
Defined.

(* ===================================================================== *)
(** * Properties: what the operations depend on                           *)
(* ===================================================================== *)

(** C3, as the code has it.  The tags [_apply_standard_tags] adds depend
    on the configuration, the environment value and the date of the run:
    whether the method succeeds does not depend on the date, every tag
    other than CreatedDate is the same on any two dates, and CreatedDate,
    when the method gets that far, is the date of the run.  Tag
    validation depends on the tag mapping and, for the order of the names
    in the missing-tags message alone, on the order in which Python
    iterates a set: two runs return the same messages after that one,
    which lists the same names, and with no mandatory tag missing they
    return the same list.  The configuration merge depends on the
    entries of the two documents only, the region code on the region
    only, and the resource name on the company code, the environment and
    the region code of the stack and on its three arguments only. *)
Theorem tags_depend_on_config_and_date :
  (forall id cfg env today today',
     outcome (base_stack._apply_standard_tags id cfg env today)
       = outcome (base_stack._apply_standard_tags id cfg env today') /\
     delete "CreatedDate" (base_stack.standard_tags id cfg env today)
       = delete "CreatedDate" (base_stack.standard_tags id cfg env today') /\
     (is_Some (base_stack.standard_tags id cfg env today !! "CreatedDate") ->
      base_stack.standard_tags id cfg env today !! "CreatedDate" = Some (PStr today))) /\
  (forall (iter_set iter_set' : gset string -> list string) (tags : gmap string string),
     (forall X, iter_set X ≡ₚ elements X) ->
     (forall X, iter_set' X ≡ₚ elements X) ->
     exists rest,
       (validate_tags.mandatory_tags ∖ dom tags = ∅ ->
          validate_tags.validate_tags iter_set tags = Ok rest /\
          validate_tags.validate_tags iter_set' tags = Ok rest) /\
       (validate_tags.mandatory_tags ∖ dom tags <> ∅ ->
          validate_tags.validate_tags iter_set tags
            = Ok (("Missing mandatory tags: " +:+
                   join ", " (iter_set (validate_tags.mandatory_tags ∖ dom tags))) :: rest) /\
          validate_tags.validate_tags iter_set' tags
            = Ok (("Missing mandatory tags: " +:+
                   join ", " (iter_set' (validate_tags.mandatory_tags ∖ dom tags))) :: rest) /\
          iter_set (validate_tags.mandatory_tags ∖ dom tags)
            ≡ₚ iter_set' (validate_tags.mandatory_tags ∖ dom tags))) /\
  (forall defaults defaults' overrides overrides' : gmap string pyval,
     (forall k, defaults !! k = defaults' !! k) ->
     (forall k, overrides !! k = overrides' !! k) ->
     app.merge_config defaults overrides = app.merge_config defaults' overrides') /\
  (forall self self',
     base_stack.region self = base_stack.region self' ->
     base_stack._get_region_code (base_stack.region self)
       = base_stack._get_region_code (base_stack.region self')) /\
  (forall self self' service resource_type identifier,
     base_stack.company_code self = base_stack.company_code self' ->
     base_stack.environment self = base_stack.environment self' ->
     base_stack.region_code self = base_stack.region_code self' ->
     base_stack.get_resource_name self service resource_type identifier
       = base_stack.get_resource_name self' service resource_type identifier).
Proof.
  split; [|split; [|split; [|split]]].
  - intros id cfg env today today'. apply standard_tags_clock.
  - intros iter_set iter_set' tags Hperm Hperm'.
    exists (environment_errors tags ++ classification_errors tags ++ date_errors tags)%list.
    rewrite !validate_tags_run. unfold missing_errors. split.
    + intros Hnone. by rewrite !decide_True.
    + intros Hsome. rewrite !decide_False by done. repeat split.
      by rewrite Hperm, Hperm'.
  - intros defaults defaults' overrides overrides' Hd Ho.
    by rewrite (map_eq _ _ Hd), (map_eq _ _ Ho).
  - by intros self self' ->.
  - intros self self' service resource_type identifier Hc He Hr.
    unfold base_stack.get_resource_name. by rewrite Hc, He, Hr.
Qed.

(** The theorem on the staging configuration and two consecutive days,
    and on the validator's example tags, complete and without two of
    their keys, iterated in two orders. *)
Lemma tags_depend_on_config_and_date_witness :
  base_stack.standard_tags "acme-stg-layer-stack" staging_config (PStr "stg")
    "2024-01-15" !! "CreatedDate" = Some (PStr "2024-01-15") /\
  validate_tags.validate_tags elements validate_tags.test_tags
    = validate_tags.validate_tags (fun X => reverse (elements X)) validate_tags.test_tags /\
  (exists rest,
     validate_tags.validate_tags elements
         (delete "Owner" (delete "Project" validate_tags.test_tags))
       = Ok (("Missing mandatory tags: " +:+
              join ", " (elements (validate_tags.mandatory_tags
                                     ∖ dom (delete "Owner"
                                              (delete "Project" validate_tags.test_tags)))))
             :: rest) /\
     validate_tags.validate_tags (fun X => reverse (elements X))
         (delete "Owner" (delete "Project" validate_tags.test_tags))
       = Ok (("Missing mandatory tags: " +:+
              join ", " (reverse (elements (validate_tags.mandatory_tags
                                     ∖ dom (delete "Owner"
                                              (delete "Project" validate_tags.test_tags))))))
             :: rest)).
Proof.
  assert (Hperm : forall X : gset string, elements X ≡ₚ elements X) by reflexivity.
  assert (Hperm' : forall X : gset string, reverse (elements X) ≡ₚ elements X)
    by (intros X; apply reverse_Permutation).
  destruct tags_depend_on_config_and_date as (Htags & Hvalidate & _).
  split; [|split].
  - destruct (Htags "acme-stg-layer-stack" staging_config (PStr "stg")
                "2024-01-15" "2024-01-16") as (_ & _ & Hdate).
    apply Hdate. eexists. reflexivity.
  - destruct (Hvalidate elements (fun X => reverse (elements X))
                validate_tags.test_tags Hperm Hperm') as (rest & Hnone & _).
    destruct Hnone as [-> ->]; [|reflexivity].
    apply (bool_decide_unpack _). vm_compute. exact I.
  - destruct (Hvalidate elements (fun X => reverse (elements X))
                (delete "Owner" (delete "Project" validate_tags.test_tags))
                Hperm Hperm') as (rest & _ & Hsome).
    exists rest. destruct Hsome as (H1 & H2 & _); [|by split].
    intros Hempty.
    assert (Hin : "Owner" ∈ validate_tags.mandatory_tags
                    ∖ dom (delete "Owner" (delete "Project" validate_tags.test_tags))).
    { apply (bool_decide_unpack _). vm_compute. exact I. }
    rewrite Hempty in Hin. by apply not_elem_of_empty in Hin.
Defined.

(** C3, as the specification states it, fails: [_apply_standard_tags],
    run for one stack with one configuration and one environment value on
    two days, leaves two different tag sets. *)
Lemma standard_tags_differ_between_days :
  base_stack.standard_tags "acme-stg-layer-stack" staging_config (PStr "stg") "2024-01-15"
  <> base_stack.standard_tags "acme-stg-layer-stack" staging_config (PStr "stg") "2024-01-16".
Proof.
  intros H. apply (f_equal (fun m => m !! "CreatedDate")) in H.
  vm_compute in H. discriminate.
Qed.

(** The order of iteration shows in what the validator returns: the same
    tags, without Owner and Project, give two different messages under
    two orders. *)
Example missing_message_follows_iteration_order :
  validate_tags.validate_tags elements
      (delete "Owner" (delete "Project" validate_tags.test_tags))
  <> validate_tags.validate_tags (fun X => reverse (elements X))
      (delete "Owner" (delete "Project" validate_tags.test_tags)).
Proof. vm_compute. discriminate. Qed.

(* ===================================================================== *)
(** * Properties: the authorizer                                          *)
(* ===================================================================== *)

Section authorizer_facts.
Import models utils handler.

Variables (jwt_decode : decoder) (environ : gmap string string).

Lemma handler_empty_token event :
  bearer_token event = "" ->
  lambda_handler jwt_decode environ event
    = ([LogEvent event], Raise (Exception "Unauthorized")).
Proof.
  intros H. unfold lambda_handler. fold (bearer_token event). by rewrite H.
Qed.

Lemma handler_missing_token event :
  event !! "authorizationToken" = None -> bearer_token event = "".
Proof. intros H. unfold bearer_token, get_default. by rewrite H. Qed.

Lemma handler_validation_failure event e :
  validate_token jwt_decode environ (bearer_token event) = Raise e ->
  snd (lambda_handler jwt_decode environ event) = Raise (Exception "Unauthorized").
Proof.
  intros H. unfold lambda_handler. fold (bearer_token event).
  destruct (String.eqb (bearer_token event) ""); [reflexivity|].
  by rewrite H.
Qed.

Lemma validate_token_expired token msg :
  jwt_decode token (get_default environ "JWT_SECRET" "your-secret-key")
    = Raise (ExpiredSignatureError msg) ->
  validate_token jwt_decode environ token = Raise (InvalidTokenError "Token has expired").
Proof. intros H. unfold validate_token. by rewrite H. Qed.

Lemma handler_raises_only_unauthorized event e :
  snd (lambda_handler jwt_decode environ event) = Raise e ->
  e = Exception "Unauthorized".
Proof.
  unfold lambda_handler.
  destruct (String.eqb _ ""); [by intros [= <-]|].
  match goal with |- context [match ?r with _ => _ end] => destruct r end;
    simpl; [discriminate | by intros [= <-]].
Qed.

Lemma to_dict_non_empty auth ctx : to_dict auth = Ok ctx -> ctx <> ∅.
Proof.
  unfold to_dict. destruct (join_value "," (roles auth)); [|discriminate].
  intros [= <-]. apply insert_non_empty.
Qed.

Lemma create_policy_with_context principal effect resource ctx :
  ctx <> ∅ ->
  create_policy principal effect resource (Some ctx)
    = {| principalId := principal;
         policyDocument :=
           {| Version := "2012-10-17";
              Statements := [ {| Action := "execute-api:Invoke";
                                 Effect := effect;
                                 Resource := resource |} ] |};
         context := Some (py_str <$> ctx) |}.
Proof. intros H. unfold create_policy. by destruct (decide (ctx = ∅)). Qed.

Lemma handler_success event auth arn ctx :
  bearer_token event <> "" ->
  validate_token jwt_decode environ (bearer_token event) = Ok auth ->
  event !! "methodArn" = Some arn ->
  to_dict auth = Ok ctx ->
  lambda_handler jwt_decode environ event
    = ([LogEvent event], Ok (create_policy (user_id auth) "Allow" arn (Some ctx))).
Proof.
  intros Htok Hval Harn Hctx. unfold lambda_handler. fold (bearer_token event).
  destruct (String.eqb_spec (bearer_token event) ""); [contradiction|].
  rewrite Hval. cbn [mbind result_bind]. rewrite (getitem_Some _ _ _ Harn).
  cbn [mbind result_bind]. by rewrite Hctx.
Qed.

Lemma handler_ok_inv event policy :
  snd (lambda_handler jwt_decode environ event) = Ok policy ->
  exists auth arn ctx,
    bearer_token event <> "" /\
    validate_token jwt_decode environ (bearer_token event) = Ok auth /\
    event !! "methodArn" = Some arn /\
    to_dict auth = Ok ctx /\
    policy = create_policy (user_id auth) "Allow" arn (Some ctx).
Proof.
  unfold lambda_handler. fold (bearer_token event).
  destruct (String.eqb_spec (bearer_token event) ""); [discriminate|].
  destruct (validate_token jwt_decode environ (bearer_token event)) as [auth|] eqn:Hv;
    [|discriminate].
  cbn [mbind result_bind]. unfold getitem.
  destruct (event !! "methodArn") as [arn|] eqn:Harn; [|discriminate].
  cbn [mbind result_bind].
  destruct (to_dict auth) as [ctx|] eqn:Hctx; [|discriminate].
  cbn [mbind mret result_bind result_ret snd]. intros [= <-].
  exists auth, arn, ctx. repeat split; assumption || reflexivity.
Qed.

End authorizer_facts.

(** C4.  For every authorization event, whatever [jwt.decode] does: an
    event without a token, and an event whose token is empty once the
    bearer prefix is removed, are answered with the exception
    Unauthorized; so is every failure of [validate_token], the expired
    token included (which [validate_token] turns into an invalid-token
    error that the handler logs and replaces); and no exception other
    than Unauthorized ever reaches the caller. *)
Theorem unauthorized_is_the_only_failure
    (jwt_decode : utils.decoder) (environ event : gmap string string) :
  (event !! "authorizationToken" = None ->
     snd (handler.lambda_handler jwt_decode environ event)
       = Raise (Exception "Unauthorized")) /\
  (bearer_token event = "" ->
     snd (handler.lambda_handler jwt_decode environ event)
       = Raise (Exception "Unauthorized")) /\
  (forall e, utils.validate_token jwt_decode environ (bearer_token event) = Raise e ->
     snd (handler.lambda_handler jwt_decode environ event)
       = Raise (Exception "Unauthorized")) /\
  (forall msg,
     jwt_decode (bearer_token event) (get_default environ "JWT_SECRET" "your-secret-key")
       = Raise (ExpiredSignatureError msg) ->
     snd (handler.lambda_handler jwt_decode environ event)
       = Raise (Exception "Unauthorized")) /\
  (forall e, snd (handler.lambda_handler jwt_decode environ event) = Raise e ->
     e = Exception "Unauthorized").
Proof.
  split; [|split; [|split; [|split]]].
  - intros H. by rewrite handler_empty_token; [|apply handler_missing_token].
  - intros H. by rewrite handler_empty_token.
  - intros e. apply handler_validation_failure.
  - intros msg H. eapply handler_validation_failure.
    by eapply validate_token_expired.
  - intros e. apply handler_raises_only_unauthorized.
Qed.

(** The theorem on the events of the handler's tests and on an expired
    token. *)
Lemma unauthorized_is_the_only_failure_witness :
  snd (handler.lambda_handler sample_decoder ∅ (api_gateway_event ""))
    = Raise (Exception "Unauthorized") /\
  snd (handler.lambda_handler sample_decoder ∅
         (delete "authorizationToken" (api_gateway_event "")))
    = Raise (Exception "Unauthorized") /\
  snd (handler.lambda_handler sample_decoder ∅ (api_gateway_event "Bearer expired-token"))
    = Raise (Exception "Unauthorized") /\
  snd (handler.lambda_handler sample_decoder ∅ (api_gateway_event "Bearer garbage"))
    = Raise (Exception "Unauthorized").
Proof.
  split; [|split; [|split]].
  - destruct (unauthorized_is_the_only_failure sample_decoder ∅ (api_gateway_event ""))
      as (_ & Hempty & _).
    apply Hempty. reflexivity.
  - destruct (unauthorized_is_the_only_failure sample_decoder ∅
                (delete "authorizationToken" (api_gateway_event "")))
      as (Hmissing & _).
    apply Hmissing. reflexivity.
  - destruct (unauthorized_is_the_only_failure sample_decoder ∅
                (api_gateway_event "Bearer expired-token"))
      as (_ & _ & _ & Hexpired & _).
    apply (Hexpired "Signature has expired"). reflexivity.
  - destruct (unauthorized_is_the_only_failure sample_decoder ∅
                (api_gateway_event "Bearer garbage"))
      as (_ & _ & Hinvalid & _).
    apply (Hinvalid (InvalidTokenError "Not enough segments")). reflexivity.
Defined.

(** C10, as the code has it.  For every token that [validate_token]
    accepts, in an event that names the method and with claims [to_dict]
    can render (roles that are strings), the handler returns the policy
    of [create_policy]: one statement whose effect is Allow, and a
    context that holds the [str] of every value of [to_dict].  Every
    policy the handler returns is of that form, so none has the effect
    Deny, and the only other outcome is the exception Unauthorized: that
    is also the answer to an accepted token whose claims [to_dict] cannot
    render, and to an event that does not name the method. *)
Theorem policy_effect_is_allow
    (jwt_decode : utils.decoder) (environ event : gmap string string) :
  (forall auth arn ctx,
     bearer_token event <> "" ->
     utils.validate_token jwt_decode environ (bearer_token event) = Ok auth ->
     event !! "methodArn" = Some arn ->
     models.to_dict auth = Ok ctx ->
     exists policy,
       snd (handler.lambda_handler jwt_decode environ event) = Ok policy /\
       utils.principalId policy = models.user_id auth /\
       utils.Statements (utils.policyDocument policy)
         = [ {| utils.Action := "execute-api:Invoke";
                utils.Effect := "Allow";
                utils.Resource := arn |} ] /\
       utils.context policy = Some (py_str <$> ctx)) /\
  (forall policy,
     snd (handler.lambda_handler jwt_decode environ event) = Ok policy ->
     Forall (fun st => utils.Effect st = "Allow")
            (utils.Statements (utils.policyDocument policy)) /\
     exists auth ctx,
       utils.validate_token jwt_decode environ (bearer_token event) = Ok auth /\
       models.to_dict auth = Ok ctx /\
       utils.context policy = Some (py_str <$> ctx) /\
       forall k s, (py_str <$> ctx) !! k = Some s ->
                   exists v, ctx !! k = Some v /\ s = py_str v) /\
  (forall policy st,
     snd (handler.lambda_handler jwt_decode environ event) = Ok policy ->
     st ∈ utils.Statements (utils.policyDocument policy) ->
     utils.Effect st <> "Deny") /\
  (forall e, snd (handler.lambda_handler jwt_decode environ event) = Raise e ->
     e = Exception "Unauthorized") /\
  (forall auth e,
     utils.validate_token jwt_decode environ (bearer_token event) = Ok auth ->
     models.to_dict auth = Raise e ->
     snd (handler.lambda_handler jwt_decode environ event)
       = Raise (Exception "Unauthorized")) /\
  (forall auth,
     utils.validate_token jwt_decode environ (bearer_token event) = Ok auth ->
     event !! "methodArn" = None ->
     snd (handler.lambda_handler jwt_decode environ event)
       = Raise (Exception "Unauthorized")).
Proof.
  assert (Hform : forall policy,
            snd (handler.lambda_handler jwt_decode environ event) = Ok policy ->
            exists auth arn ctx,
              utils.validate_token jwt_decode environ (bearer_token event) = Ok auth /\
              models.to_dict auth = Ok ctx /\
              policy = {| utils.principalId := models.user_id auth;
                          utils.policyDocument :=
                            {| utils.Version := "2012-10-17";
                               utils.Statements :=
                                 [ {| utils.Action := "execute-api:Invoke";
                                      utils.Effect := "Allow";
                                      utils.Resource := arn |} ] |};
                          utils.context := Some (py_str <$> ctx) |}).
  { intros policy H.
    destruct (handler_ok_inv _ _ _ _ H) as (auth & arn & ctx & _ & Hv & _ & Hctx & ->).
    exists auth, arn, ctx. split; [done|]. split; [done|].
    apply create_policy_with_context. by eapply to_dict_non_empty. }
  split; [|split; [|split; [|split; [|split]]]].
  - intros auth arn ctx Htok Hv Harn Hctx.
    rewrite (handler_success _ _ _ _ _ _ Htok Hv Harn Hctx). cbn [snd].
    eexists. split; [reflexivity|].
    rewrite create_policy_with_context by (by eapply to_dict_non_empty).
    by repeat split.
  - intros policy H. destruct (Hform policy H) as (auth & arn & ctx & Hv & Hctx & ->).
    cbn. split; [by repeat constructor|].
    exists auth, ctx. repeat split; try done.
    intros k s Hk. rewrite lookup_fmap in Hk.
    destruct (ctx !! k) as [v|]; [|discriminate].
    exists v. split; [done|]. by injection Hk as <-.
  - intros policy st H Hin.
    destruct (Hform policy H) as (auth & arn & ctx & _ & _ & ->).
    cbn in Hin. apply list_elem_of_singleton in Hin as ->. discriminate.
  - intros e. apply handler_raises_only_unauthorized.
  - intros auth e Hv Hctx.
    destruct (snd (handler.lambda_handler jwt_decode environ event))
      as [policy|e'] eqn:Hrun.
    + destruct (handler_ok_inv _ _ _ _ Hrun) as (auth' & arn & ctx & _ & Hv' & _ & Hctx' & _).
      congruence.
    + f_equal. by eapply handler_raises_only_unauthorized.
  - intros auth Hv Harn.
    destruct (snd (handler.lambda_handler jwt_decode environ event))
      as [policy|e'] eqn:Hrun.
    + destruct (handler_ok_inv _ _ _ _ Hrun) as (auth' & arn & ctx & _ & _ & Harn' & _).
      congruence.
    + f_equal. by eapply handler_raises_only_unauthorized.
Qed.

(** The theorem on the event of the handler's test for a valid token. *)
Lemma policy_effect_is_allow_witness :
  exists policy,
    snd (handler.lambda_handler sample_decoder ∅ (api_gateway_event "Bearer valid-token"))
      = Ok policy /\
    utils.principalId policy = PStr "user123" /\
    utils.Statements (utils.policyDocument policy)
      = [ {| utils.Action := "execute-api:Invoke";
             utils.Effect := "Allow";
             utils.Resource :=
               "arn:aws:execute-api:us-east-1:123456789012:api-id/stage/GET/resource" |} ] /\
    utils.context policy
      = Some (py_str <$> ({[ "userId" := PStr "user123";
                              "email" := PStr "";
                              "roles" := PStr "admin,ops";
                              "expiresAt" := PStr "1700000000" ]} : gmap string pyval)).
Proof.
  destruct (policy_effect_is_allow sample_decoder ∅
              (api_gateway_event "Bearer valid-token")) as (Hallow & _).
  apply (Hallow
           {| models.user_id := PStr "user123";
              models.email := PNone;
              models.roles := PList [PStr "admin"; PStr "ops"];
              models.expires_at := PInt 1700000000 |}).
  - discriminate.
  - reflexivity.
  - reflexivity.
  - vm_compute. reflexivity.
Defined.

(** C10, as the specification states it, fails: a token that validates
    need not be answered with a policy.  [validate_token] accepts the
    token whose claims list the role 1, [to_dict] cannot join that role,
    and the handler answers with the exception Unauthorized. *)
Lemma validated_token_without_policy :
  is_ok (utils.validate_token numeric_roles_decoder ∅ "numeric-roles") = true /\
  bearer_token (api_gateway_event "Bearer numeric-roles") = "numeric-roles" /\
  handler.lambda_handler numeric_roles_decoder ∅ (api_gateway_event "Bearer numeric-roles")
    = ([ handler.LogEvent (api_gateway_event "Bearer numeric-roles");
         handler.LogError (TypeError "join") ],
       Raise (Exception "Unauthorized")).
Proof. repeat split; vm_compute; reflexivity. Qed.

(* ===================================================================== *)
(** * Properties: the stack graph builder                                 *)
(* ===================================================================== *)

Section graph_facts.
Import graph_builder.

Lemma ready_spec waiting u :
  ready waiting u = true <-> forall d, d ∈ depends_on u -> d ∉ waiting.
Proof.
  unfold ready. rewrite forallb_forall. split.
  - intros H d Hd Hin. apply list_elem_of_In in Hd. apply H in Hd.
    apply negb_true_iff, bool_decide_eq_false in Hd. contradiction.
  - intros H d Hd. apply negb_true_iff, bool_decide_eq_false, H.
    by apply list_elem_of_In.
Qed.

Lemma pick_Some waiting pending u rest :
  pick waiting pending = Some (u, rest) ->
  ready waiting u = true /\ pending ≡ₚ u :: rest.
Proof.
  revert rest. induction pending as [|v pending IH]; intros rest; [discriminate|].
  simpl. destruct (ready waiting v) eqn:Hv.
  - intros [= -> <-]. by split.
  - destruct (pick waiting pending) as [[w rest']|]; [|discriminate].
    intros [= -> <-]. destruct (IH rest' eq_refl) as [Hr Hp].
    split; [done|]. rewrite Hp. apply Permutation_swap.
Qed.

Lemma pick_None waiting pending :
  pick waiting pending = None -> Forall (fun u => ready waiting u = false) pending.
Proof.
  induction pending as [|v pending IH]; [constructor|].
  simpl. destruct (ready waiting v) eqn:Hv; [discriminate|].
  destruct (pick waiting pending) as [[w rest']|]; [discriminate|].
  intros _. constructor; auto.
Qed.

Lemma dependency_order_snoc emitted pending u rest :
  dependency_order emitted -> settled emitted pending ->
  pending ≡ₚ u :: rest -> ready (map spec_id pending) u = true ->
  dependency_order (emitted ++ [u]) /\ settled (emitted ++ [u]) rest.
Proof.
  intros Hord Hset Hperm Hready.
  assert (Hu : spec_id u ∈ map spec_id pending).
  { change (spec_id u ∈ spec_id <$> pending). rewrite Hperm.
    apply list_elem_of_here. }
  assert (Hsub : forall d, d ∈ map spec_id rest -> d ∈ map spec_id pending).
  { intros d Hd. change (d ∈ spec_id <$> pending). rewrite Hperm.
    by apply list_elem_of_further. }
  pose proof (proj1 (ready_spec _ _) Hready) as Hdeps.
  split.
  - intros i j v w d Hi Hd Hj Hw.
    apply lookup_snoc_Some in Hi as [[Hlt Hi]|[-> <-]];
      apply lookup_snoc_Some in Hj as [[Hlt' Hj]|[-> <-]].
    + by eapply Hord.
    + exfalso. eapply Hset; [by eapply list_elem_of_lookup_2|done|].
      by rewrite <- Hw.
    + done.
    + exfalso. apply (Hdeps d Hd). by rewrite <- Hw.
  - intros v d [Hv|Hv%list_elem_of_singleton]%elem_of_app Hd Hin.
    + eapply Hset; eauto.
    + subst v. eapply Hdeps; eauto.
Qed.

(** What a finished emission loop returns. *)
Lemma emit_units_sound n emitted pending plan :
  length pending = n ->
  dependency_order emitted -> settled emitted pending ->
  emit_units n emitted pending = inr plan ->
  plan ≡ₚ emitted ++ pending /\ dependency_order plan.
Proof.
  revert emitted pending. induction n as [|n IH]; intros emitted pending Hlen Hord Hset.
  - destruct pending; [|discriminate]. simpl. intros [= <-].
    by rewrite app_nil_r.
  - simpl. destruct (pick (map spec_id pending) pending) as [[u rest]|] eqn:Hpick;
      [|discriminate].
    destruct (pick_Some _ _ _ _ Hpick) as [Hready Hperm].
    destruct (dependency_order_snoc _ _ _ _ Hord Hset Hperm Hready) as [Hord' Hset'].
    intros Hrun. apply IH in Hrun as [Hp Ho]; [|by apply Permutation_length in Hperm;
                                                 simpl in Hperm; lia|done..].
    split; [|done]. rewrite Hp, Hperm, <- app_assoc. done.
Qed.

Lemma build_sound specs plan :
  build specs = inr plan -> plan ≡ₚ specs /\ dependency_order plan.
Proof.
  intros H. apply emit_units_sound in H; [done|done|..].
  - intros i j u v d Hi. by rewrite lookup_nil in Hi.
  - intros u d Hu. by apply elem_of_nil in Hu.
Qed.

(** In a plan in dependency order, a chain of edges from [a] to [b] gives
    a unit named [a] that comes after every unit named [b]. *)
Lemma chain_goes_back specs plan a b :
  plan ≡ₚ specs -> dependency_order plan ->
  tc (edge specs) a b ->
  exists i u, plan !! i = Some u /\ spec_id u = a /\
              forall j v, plan !! j = Some v -> spec_id v = b -> j < i.
Proof.
  intros Hperm Hord Htc.
  assert (Hedge : forall a b, edge specs a b ->
            exists i u, plan !! i = Some u /\ spec_id u = a /\
                        forall j v, plan !! j = Some v -> spec_id v = b -> j < i).
  { intros x y (u & Hu & Hid & Hd).
    rewrite <- Hperm in Hu. apply list_elem_of_lookup in Hu as (i & Hi).
    exists i, u. split; [done|]. split; [done|].
    intros j v Hj Hv. by eapply Hord. }
  induction Htc as [x y Hxy | x y z Hxy Hyz IH]; [by apply Hedge|].
  destruct (Hedge _ _ Hxy) as (i & u & Hi & Hu & Hbefore).
  destruct IH as (i' & u' & Hi' & Hu' & Hbefore').
  exists i, u. split; [done|]. split; [done|].
  intros j v Hj Hv.
  specialize (Hbefore i' u' Hi' Hu'). specialize (Hbefore' j v Hj Hv). lia.
Qed.

Lemma build_rejects_cycle specs :
  cyclic specs -> build specs = inl CyclicDependency.
Proof.
  intros (a & Hcycle).
  destruct (build specs) as [[]|plan] eqn:Hbuild; [done|]. exfalso.
  destruct (build_sound _ _ Hbuild) as [Hperm Hord].
  destruct (chain_goes_back _ _ _ _ Hperm Hord Hcycle) as (i & u & Hi & Hu & Hbefore).
  specialize (Hbefore i u Hi Hu). lia.
Qed.

(** A walk through a finite set of nodes that all have a successor in the
    set comes back to a node it has seen. *)
Lemma walk_closes (R : relation string) (nodes : list string) :
  (forall a, a ∈ nodes -> exists b, b ∈ nodes /\ R a b) ->
  forall k visited a,
    length nodes <= length visited + k ->
    NoDup visited -> (forall v, v ∈ visited -> v ∈ nodes) ->
    a ∈ nodes -> (forall v, v ∈ visited -> tc R v a) ->
    exists c, tc R c c.
Proof.
  intros Hsucc k. induction k as [|k IH]; intros visited a Hlen Hnd Hsub Ha Hreach.
  - destruct (decide (a ∈ visited)) as [Hin|Hout]; [by exists a; apply Hreach|].
    exfalso.
    assert (Hle : length (a :: visited) <= length nodes).
    { apply submseteq_length, NoDup_submseteq; [by constructor|].
      intros x [->|Hx]%elem_of_cons; auto. }
    simpl in Hle. lia.
  - destruct (decide (a ∈ visited)) as [Hin|Hout]; [by exists a; apply Hreach|].
    destruct (Hsucc a Ha) as (b & Hb & Hab).
    apply (IH (a :: visited) b).
    + simpl. lia.
    + by constructor.
    + intros x [->|Hx]%elem_of_cons; auto.
    + done.
    + intros x [->|Hx]%elem_of_cons; [by apply tc_once|].
      eapply tc_r; eauto.
Qed.

(** When units are pending and none is ready, the edges among them
    contain a cycle. *)
Lemma stuck_has_cycle specs emitted pending :
  emitted ++ pending ≡ₚ specs ->
  pending <> [] ->
  Forall (fun u => ready (map spec_id pending) u = false) pending ->
  cyclic specs.
Proof.
  intros Hperm Hne Hstuck.
  assert (Hsucc : forall a, a ∈ map spec_id pending ->
            exists b, b ∈ map spec_id pending /\ edge specs a b).
  { intros a (u & -> & Hu)%list_elem_of_fmap.
    rewrite Forall_forall in Hstuck. specialize (Hstuck u Hu).
    assert (Hex : exists d, d ∈ depends_on u /\ d ∈ map spec_id pending).
    { destruct (decide (Forall (fun d => d ∉ map spec_id pending) (depends_on u)))
        as [Hall|Hnot].
      - rewrite Forall_forall in Hall.
        pose proof (proj2 (ready_spec _ _) Hall). congruence.
      - apply not_Forall_Exists in Hnot; [|intros d; apply _].
        apply Exists_exists in Hnot as (d & Hd & Hn).
        exists d. split; [done|]. by apply dec_stable. }
    destruct Hex as (d & Hd & Hin).
    assert (Hus : u ∈ specs) by (rewrite <- Hperm; apply elem_of_app; auto).
    exists d. split; [done|]. by exists u. }
  destruct pending as [|u0 pending]; [done|].
  apply (walk_closes (edge specs) (map spec_id (u0 :: pending)) Hsucc
           (length (map spec_id (u0 :: pending))) [] (spec_id u0)).
  - simpl. lia.
  - constructor.
  - by intros v ?%elem_of_nil.
  - simpl. apply elem_of_cons. by left.
  - by intros v ?%elem_of_nil.
Qed.

Lemma emit_units_complete specs n emitted pending :
  emitted ++ pending ≡ₚ specs ->
  ~ cyclic specs ->
  length pending = n ->
  exists plan, emit_units n emitted pending = inr plan.
Proof.
  intros Hperm Hacyclic. revert emitted pending Hperm.
  induction n as [|n IH]; intros emitted pending Hperm Hlen; [by eexists|].
  simpl. destruct (pick (map spec_id pending) pending) as [[u rest]|] eqn:Hpick.
  - destruct (pick_Some _ _ _ _ Hpick) as [_ Hp].
    apply IH.
    + rewrite <- Hperm, Hp, <- app_assoc. done.
    + apply Permutation_length in Hp. simpl in Hp. lia.
  - exfalso. apply Hacyclic.
    eapply stuck_has_cycle; eauto using pick_None.
    by destruct pending.
Qed.

Lemma build_complete specs :
  ~ cyclic specs -> exists plan, build specs = inr plan.
Proof. intros Hac. by apply (emit_units_complete specs). Qed.

End graph_facts.

Lemma loop_specs_cyclic : graph_builder.cyclic loop_specs.
Proof.
  exists "A". apply tc_l with "B"; [|apply tc_once].
  - eexists. split; [apply list_elem_of_here|]. split; [reflexivity|].
    apply list_elem_of_here.
  - eexists. split; [apply list_elem_of_further, list_elem_of_here|].
    split; [reflexivity|]. apply list_elem_of_here.
Qed.

(** C2.  The stack graph builder, on every list of stack specifications:
    when the edge relation contains a cycle it raises CyclicDependency
    and emits no plan; when it contains none it emits a plan; and a plan
    it emits holds the units of the list, each once, every unit after all
    the units it depends on.  On A, B depending on A, C depending on B
    the plan is A, B, C; on A depending on B and B depending on A the
    builder raises CyclicDependency. *)
Theorem build_dependency_order_or_cycle (specs : list graph_builder.StackSpec) :
  (graph_builder.cyclic specs ->
     graph_builder.build specs = inl graph_builder.CyclicDependency) /\
  (~ graph_builder.cyclic specs ->
     exists plan, graph_builder.build specs = inr plan) /\
  (forall plan, graph_builder.build specs = inr plan ->
     plan ≡ₚ specs /\ graph_builder.dependency_order plan) /\
  graph_builder.build chain_specs = inr chain_specs /\
  graph_builder.build loop_specs = inl graph_builder.CyclicDependency.
Proof.
  split; [|split; [|split; [|split]]].
  - apply build_rejects_cycle.
  - apply build_complete.
  - apply build_sound.
  - reflexivity.
  - reflexivity.
Qed.

(** The theorem on the two example inputs. *)
Lemma build_dependency_order_or_cycle_witness :
  (chain_specs ≡ₚ chain_specs /\ graph_builder.dependency_order chain_specs) /\
  graph_builder.build loop_specs = inl graph_builder.CyclicDependency /\
  (exists plan, graph_builder.build chain_specs = inr plan).
Proof.
  split; [|split].
  - destruct (build_dependency_order_or_cycle chain_specs) as (_ & _ & Hsound & _).
    apply Hsound. reflexivity.
  - destruct (build_dependency_order_or_cycle loop_specs) as (Hcycle & _).
    apply Hcycle. apply loop_specs_cyclic.
  - destruct (build_dependency_order_or_cycle chain_specs)
      as (Hcycle & Hcomplete & _).
    apply Hcomplete.
    intros Hcyc. apply Hcycle in Hcyc. discriminate.
Defined.

(** The builder on inputs outside the examples: a cycle through an
    identifier that two units bear is rejected, a dependency on an
    identifier that no unit bears holds nothing back, and the topology
    [app.py] declares is emitted layer first, then the compute stack,
    then the edge proxy. *)
Lemma reference_topology_plan :
  graph_builder.build repeated_specs = inl graph_builder.CyclicDependency /\
  graph_builder.build dangling_specs = inr dangling_specs /\
  graph_builder.build (graph_builder.reference_topology "acme" "dev")
    = inr (graph_builder.reference_topology "acme" "dev").
Proof. repeat split. Qed.

(* ===================================================================== *)
(** * Further properties of the tag validator and of dates                *)
(* ===================================================================== *)

Section validator_more.
Import validate_tags.


Lemma missing_errors_nil iter_set tags :
  missing_errors iter_set tags = [] <-> mandatory_tags ⊆ dom tags.
Proof.
  split; [|apply missing_errors_none].
  unfold missing_errors. case_decide as E; [|discriminate].
  intros _ x Hx. destruct (decide (x ∈ dom tags)) as [|Hn]; [done|].
  exfalso. apply (not_elem_of_empty (C:=gset string) x). rewrite <- E.
  by apply elem_of_difference.
Qed.

Lemma environment_errors_nil tags :
  environment_errors tags = [] <->
  forall v, tags !! "Environment" = Some v -> v ∈ valid_environments.
Proof.
  unfold environment_errors. destruct (tags !! "Environment") as [v|].
  - case_decide as E; split; try done.
    + by intros _ w [= <-].
    + intros H. exfalso. by apply E, H.
  - split; [by intros _ v ?|done].
Qed.

Lemma classification_errors_nil tags :
  classification_errors tags = [] <->
  forall v, tags !! "DataClassification" = Some v -> v ∈ valid_data_classifications.
Proof.
  unfold classification_errors. destruct (tags !! "DataClassification") as [v|].
  - case_decide as E; split; try done.
    + by intros _ w [= <-].
    + intros H. exfalso. by apply E, H.
  - split; [by intros _ v ?|done].
Qed.

Lemma date_errors_nil tags :
  date_errors tags = [] <->
  forall v, tags !! "CreatedDate" = Some v -> is_ok (strptime_ymd v) = true.
Proof.
  unfold date_errors. destruct (tags !! "CreatedDate") as [v|].
  - destruct (is_ok (strptime_ymd v)) eqn:E; split; try done.
    + by intros _ w [= <-].
    + intros H. specialize (H v eq_refl). congruence.
  - split; [by intros _ v ?|done].
Qed.

Lemma compliant_iff_no_errors
    (iter_set : gset string -> list string) (tags : gmap string string) :
  validate_tags iter_set tags = Ok [] <-> compliant tags.
Proof.
  rewrite validate_tags_run. unfold compliant.
  rewrite <- (missing_errors_nil iter_set), <- environment_errors_nil,
    <- classification_errors_nil, <- date_errors_nil.
  split.
  - intros [= H]. apply app_eq_nil in H as [-> H].
    apply app_eq_nil in H as [-> H]. apply app_eq_nil in H as [-> ->]. done.
  - intros (-> & -> & -> & ->). done.
Qed.

(** X1.  [validate_tags] returns the empty list exactly for the compliant
    tag mappings: every mandatory key present, an enumerated Environment
    and DataClassification where those keys occur, and a CreatedDate that
    [strptime] accepts.  The iteration order plays no part. *)
Theorem validate_tags_accepts_iff_compliant
    (iter_set : gset string -> list string) (tags : gmap string string) :
  validate_tags iter_set tags = Ok [] <-> compliant tags.
Proof. apply compliant_iff_no_errors. Qed.

Lemma length_le_1_missing it tags : length (missing_errors it tags) <= 1.
Proof. unfold missing_errors. case_decide; simpl; lia. Qed.
Lemma length_le_1_env tags : length (environment_errors tags) <= 1.
Proof. unfold environment_errors. destruct (_ !! _); [case_decide|]; simpl; lia. Qed.
Lemma length_le_1_class tags : length (classification_errors tags) <= 1.
Proof. unfold classification_errors. destruct (_ !! _); [case_decide|]; simpl; lia. Qed.
Lemma length_le_1_date tags : length (date_errors tags) <= 1.
Proof. unfold date_errors. destruct (_ !! _); [destruct (is_ok _)|]; simpl; lia. Qed.

(** X2.  [validate_tags] returns at most four messages.  When mandatory
    keys are missing the first message names all of them; an Environment
    outside the enumerated values is reported with that value; and a
    CreatedDate that does not parse is reported in the last message. *)
Theorem validate_tags_message_layout
    (iter_set : gset string -> list string) (tags : gmap string string) :
  (forall X, iter_set X ≡ₚ elements X) ->
  exists errors,
    validate_tags iter_set tags = Ok errors /\
    length errors <= 4 /\
    (~ mandatory_tags ⊆ dom tags ->
     exists msg rest, errors = msg :: rest /\
       forall key, key ∈ mandatory_tags -> tags !! key = None -> mentions msg key) /\
    (forall v, tags !! "Environment" = Some v -> v ∉ valid_environments ->
       ("Invalid Environment tag: " +:+ v) ∈ errors) /\
    (forall v, tags !! "CreatedDate" = Some v -> is_ok (strptime_ymd v) = false ->
       last errors = Some ("Invalid CreatedDate format: " +:+ v)).
Proof.
  intros Hperm. rewrite validate_tags_run. eexists. split; [reflexivity|].
  split; [|split; [|split]].
  - rewrite !length_app.
    pose proof (length_le_1_missing iter_set tags).
    pose proof (length_le_1_env tags). pose proof (length_le_1_class tags).
    pose proof (length_le_1_date tags). lia.
  - intros Hn. unfold missing_errors. case_decide as E.
    { exfalso. apply Hn. apply (missing_errors_nil iter_set).
      unfold missing_errors. by rewrite decide_True. }
    eexists _, _. split; [reflexivity|].
    intros key Hk Hnone. apply mentions_prepend, join_mentions.
    rewrite (Hperm _). apply elem_of_elements, elem_of_difference.
    split; [done|]. by apply not_elem_of_dom.
  - intros v Hv Hbad. apply elem_of_app. right. apply elem_of_app. left.
    unfold environment_errors. rewrite Hv. rewrite decide_False by done.
    by apply list_elem_of_singleton.
  - intros v Hv Hbad. rewrite !app_assoc.
    unfold date_errors at 1. rewrite Hv, Hbad. by rewrite last_snoc.
Qed.

End validator_more.

Section date_facts.
Import validate_tags base_stack.
Local Open Scope Z_scope.

Lemma digit_of_nat k :
  (k < 10)%nat -> digit (ascii_of_nat (48 + k)) = Some (Z.of_nat k).
Proof.
  intros Hk. do 10 (destruct k as [|k]; [reflexivity|]). lia.
Qed.

Lemma digit_digit_char n : 0 <= n <= 9 -> digit (digit_char n) = Some n.
Proof.
  intros H. unfold digit_char. rewrite <- (Z2Nat.id n) at 2 by lia.
  apply digit_of_nat. lia.
Qed.

Lemma parse_year_pad4 y rest :
  0 <= y <= 9999 -> parse_year (pad4 y +:+ rest) = Some (y, rest).
Proof.
  intros Hy.
  change (pad4 y +:+ rest)
    with (String (digit_char (y / 1000 mod 10))
            (String (digit_char (y / 100 mod 10))
               (String (digit_char (y / 10 mod 10))
                  (String (digit_char (y mod 10)) rest)))).
  unfold parse_year.
  rewrite !digit_digit_char
    by (match goal with
        | |- 0 <= ?x mod 10 <= 9 =>
            pose proof (Z.mod_pos_bound x 10 ltac:(lia)); lia
        end).
  do 2 f_equal.
  pose proof (Z.div_mod y 10 ltac:(lia)).
  pose proof (Z.div_mod (y / 10) 10 ltac:(lia)).
  pose proof (Z.div_mod (y / 100) 10 ltac:(lia)).
  pose proof (Z.div_mod (y / 1000) 10 ltac:(lia)).
  assert (y / 10 / 10 = y / 100) by (rewrite Z.div_div by lia; reflexivity).
  assert (y / 100 / 10 = y / 1000) by (rewrite Z.div_div by lia; reflexivity).
  assert (y / 1000 / 10 = 0) by (rewrite Z.div_div by lia; apply Z.div_small; lia).
  lia.
Qed.

Lemma parse_month_of_nat k rest :
  (1 <= k <= 12)%nat ->
  parse_month (pad2 (Z.of_nat k) +:+ String "-" rest)
    = Some (Z.of_nat k, String "-" rest).
Proof.
  intros Hk. do 13 (destruct k as [|k]; [try reflexivity; lia|]). lia.
Qed.

Lemma parse_month_pad2 m rest :
  1 <= m <= 12 -> parse_month (pad2 m +:+ String "-" rest) = Some (m, String "-" rest).
Proof.
  intros H. rewrite <- (Z2Nat.id m) by lia. apply parse_month_of_nat. lia.
Qed.

Lemma parse_day_of_nat k :
  (1 <= k <= 31)%nat -> parse_day (pad2 (Z.of_nat k)) = Some (Z.of_nat k, ""%string).
Proof.
  intros Hk. do 32 (destruct k as [|k]; [try reflexivity; lia|]). lia.
Qed.

Lemma parse_day_pad2 d :
  1 <= d <= 31 -> parse_day (pad2 d) = Some (d, ""%string).
Proof.
  intros H. rewrite <- (Z2Nat.id d) by lia. apply parse_day_of_nat. lia.
Qed.

Lemma days_in_month_le y m : days_in_month y m <= 31.
Proof.
  unfold days_in_month.
  repeat match goal with |- context [if ?b then _ else _] => destruct b end; lia.
Qed.

(** X3.  The date [base_stack.py] writes is one [validate_tags.py]
    reads back: for every calendar date of the years 1000 to 9999,
    parsing with the format of the validator what [strftime] printed with
    the same format gives the date again. *)
Theorem strptime_strftime_round_trip y m d :
  valid_date y m d = true -> 1000 <= y <= 9999 ->
  strptime_ymd (strftime_ymd y m d) = Ok (y, m, d).
Proof.
  intros Hvalid Hy.
  assert (Hb : 1 <= y /\ 1 <= m <= 12 /\ 1 <= d <= 31).
  { unfold valid_date in Hvalid.
    repeat (apply andb_prop in Hvalid as [Hvalid ?]).
    pose proof (days_in_month_le y m). lia. }
  destruct Hb as (Hy1 & Hm & Hd).
  unfold strptime_ymd, strftime_ymd.
  rewrite parse_year_pad4 by lia. cbn [expect_dash].
  change ("-" +:+ ?s) with (String "-" s). cbn [expect_dash].
  change (pad2 m +:+ "-" +:+ pad2 d) with (pad2 m +:+ String "-" (pad2 d)).
  rewrite parse_month_pad2 by done. cbn [expect_dash].
  rewrite parse_day_pad2 by done. by rewrite Hvalid.
Qed.

Lemma first_match_In alts s r :
  first_match alts s = Some r -> exists p, In p alts /\ p s = Some r.
Proof.
  induction alts as [|p alts IH]; [discriminate|]. simpl.
  destruct (p s) eqn:E.
  - intros [= <-]. exists p. auto.
  - intros H. destruct (IH H) as (q & ? & ?). exists q. auto.
Qed.

Lemma two_digits_length t lo hi s v rest :
  two_digits t lo hi s = Some (v, rest) ->
  String.length s = (2 + String.length rest)%nat.
Proof.
  unfold two_digits. destruct s as [|a [|b s]]; try discriminate.
  destruct (in_range t t a), (in_range lo hi b); try discriminate.
  by intros [= _ <-].
Qed.

Lemma one_digit_length lo hi s v rest :
  one_digit lo hi s = Some (v, rest) ->
  String.length s = (1 + String.length rest)%nat.
Proof.
  unfold one_digit. destruct s as [|a s]; try discriminate.
  destruct (in_range lo hi a); try discriminate. by intros [= _ <-].
Qed.

Lemma parse_month_length s v rest :
  parse_month s = Some (v, rest) ->
  (1 + String.length rest <= String.length s <= 2 + String.length rest)%nat.
Proof.
  intros H. apply first_match_In in H as (p & Hp & H).
  simpl in Hp. destruct Hp as [<-|[<-|[<-|[]]]];
    first [apply two_digits_length in H | apply one_digit_length in H]; lia.
Qed.

Lemma parse_day_length s v rest :
  parse_day s = Some (v, rest) ->
  (1 + String.length rest <= String.length s <= 2 + String.length rest)%nat.
Proof.
  intros H. apply first_match_In in H as (p & Hp & H).
  simpl in Hp. destruct Hp as [<-|[<-|[<-|[<-|[<-|[<-|[]]]]]]];
    first [apply two_digits_length in H | apply one_digit_length in H | idtac];
    try lia.
  unfold space_digit in H. destruct s as [|c s]; [discriminate|].
  destruct (Ascii.eqb_spec c " "); [subst|].
  - apply one_digit_length in H. simpl. lia.
  - exfalso. revert H. clear -n.
    destruct c as [[] [] [] [] [] [] [] []]; try discriminate; congruence.
Qed.

(** X4.  The CreatedDate check accepts only dates of the calendar: when
    [strptime] succeeds, the year, month and day it returns form a valid
    date (so no 30th of February, no month 13, no year 0), and the text
    had between eight and ten characters (month and day may be written
    with one digit). *)
Theorem strptime_accepts_only_calendar_dates s y m d :
  strptime_ymd s = Ok (y, m, d) ->
  valid_date y m d = true /\ (8 <= String.length s <= 10)%nat.
Proof.
  unfold strptime_ymd.
  destruct (parse_year s) as [[y0 s1]|] eqn:Hy; [|discriminate].
  destruct (expect_dash s1) as [s2|] eqn:H1; [|discriminate].
  destruct (parse_month s2) as [[m0 s3]|] eqn:Hm; [|discriminate].
  destruct (expect_dash s3) as [s4|] eqn:H2; [|discriminate].
  destruct (parse_day s4) as [[d0 [|c s5]]|] eqn:Hd; [|discriminate|discriminate].
  destruct (valid_date y0 m0 d0) eqn:Hv; [|discriminate].
  intros [= <- <- <-]. split; [done|].
  apply parse_month_length in Hm. apply parse_day_length in Hd. simpl in Hd.
  assert (String.length s = (4 + String.length s1)%nat).
  { unfold parse_year in Hy. destruct s as [|a [|b [|c [|e s']]]]; try discriminate.
    destruct (digit a), (digit b), (digit c), (digit e); try discriminate.
    by injection Hy as _ <-. }
  assert (String.length s1 = (1 + String.length s2)%nat).
  { unfold expect_dash in H1. destruct s1 as [|c s1]; [discriminate|].
    destruct (Ascii.eqb_spec c "-"); [subst; by injection H1 as <-|].
    exfalso. revert H1. clear -n.
    destruct c as [[] [] [] [] [] [] [] []]; try discriminate; congruence. }
  assert (String.length s3 = (1 + String.length s4)%nat).
  { unfold expect_dash in H2. destruct s3 as [|c s3]; [discriminate|].
    destruct (Ascii.eqb_spec c "-"); [subst; by injection H2 as <-|].
    exfalso. revert H2. clear -n.
    destruct c as [[] [] [] [] [] [] [] []]; try discriminate; congruence. }
  lia.
Qed.

End date_facts.

Section tags_and_validator.
Import base_stack validate_tags.






End tags_and_validator.

(* ===================================================================== *)
(** * Further properties of the stack assembly                            *)
(* ===================================================================== *)

Section deploy_facts.

Lemma trace_bind {A B} (m : deploy A) (f : A -> deploy B) :
  trace (m ≫= f)
    = match outcome m with
      | Ok a => (trace m ++ trace (f a))%list
      | Raise _ => trace m
      end.
Proof. unfold mbind, deploy_bind. by destruct (outcome m). Qed.

Lemma outcome_bind {A B} (m : deploy A) (f : A -> deploy B) :
  outcome (m ≫= f)
    = match outcome m with
      | Ok a => outcome (f a)
      | Raise e => Raise e
      end.
Proof. unfold mbind, deploy_bind. by destruct (outcome m). Qed.

Lemma declare_run lib constructor stack logical_id name args :
  declare lib constructor stack logical_id name args
    = match lib constructor (PStr name :: args) with
      | Ok _ => Deploy [ResourceDeclared stack logical_id name] (Ok tt)
      | Raise e => Deploy [] (Raise e)
      end.
Proof. unfold declare, call. by destruct (lib constructor (PStr name :: args)). Qed.

End deploy_facts.

Section assembly_facts.
Import base_stack app.

(** X6.  The assembly of [app.py] never completes: for every library,
    environment, date and pair of documents the run ends with an
    exception, and [app.synth()] is not reached. *)
Theorem main_never_synthesizes lib environ today defaults overrides :
  (exists e, outcome (main lib environ today defaults overrides) = Raise e) /\
  Forall (fun a => a <> Synthesized) (trace (main lib environ today defaults overrides)).
Proof.
  unfold main. rewrite assemble_run.
  repeat case_match; cbn [outcome trace];
    (split; [eauto | repeat constructor; discriminate]).
Qed.

(** X7.  With a configuration that has the company code, the region and
    the environment, and a library that accepts the deployment
    environment and the identifier of the layer stack, the run of
    [app.py] constructs the layer stack and stops at the assignment to
    [self.environment], which [aws_cdk.Stack] does not allow.  The
    identifier of the stack is built from the process variable
    ENVIRONMENT (dev when unset), not from the environment of the
    configuration.  Whatever the configuration and the library, a run
    constructs at most that one stack: it adds no tag, declares no
    resource and registers no dependency. *)
Theorem main_stops_at_environment_assignment
    lib environ today defaults overrides :
  (forall cc region,
     merge_config defaults overrides !! "company_code" = Some cc ->
     merge_config defaults overrides !! "region" = Some region ->
     is_Some (merge_config defaults overrides !! "environment") ->
     lib "Environment" [getenv environ "CDK_DEFAULT_ACCOUNT"; region] = Ok tt ->
     lib "Stack" [PStr (stack_id cc (get_default environ "ENVIRONMENT" "dev") "layer")]
       = Ok tt ->
     main lib environ today defaults overrides
       = Deploy [StackConstructed
                   (stack_id cc (get_default environ "ENVIRONMENT" "dev") "layer")]
                (Raise (AttributeError "environment"))) /\
  (trace (main lib environ today defaults overrides) = [] \/
   exists cc,
     merge_config defaults overrides !! "company_code" = Some cc /\
     trace (main lib environ today defaults overrides)
       = [StackConstructed
            (stack_id cc (get_default environ "ENVIRONMENT" "dev") "layer")]).
Proof.
  unfold main. rewrite assemble_run.
  generalize (merge_config defaults overrides) as cfg. intros cfg. split.
  - intros cc region Hcc Hr [ev He] Hlib Hstack. rewrite Hcc, Hr. cbv beta iota.
    by rewrite Hlib, Hstack, He.
  - repeat case_match; cbn [trace]; eauto.
Qed.

End assembly_facts.

Section stack_runs.
Import base_stack app.

(** X8.  [BaseStack.__init__] never returns.  When the constructor of
    [Stack] accepts the identifier, the stack is constructed and the
    initialiser raises: [KeyError] for a configuration without
    environment, and otherwise [AttributeError], at the assignment to the
    property [environment] of [aws_cdk.Stack].  It leaves no tag on the
    stack. *)
Theorem base_init_never_returns lib id cfg rv today :
  is_ok (outcome (base_stack.__init__ lib id cfg rv today)) = false /\
  tags_of id (trace (base_stack.__init__ lib id cfg rv today)) = ∅ /\
  (lib "Stack" [PStr id] = Ok tt -> is_Some (cfg !! "environment") ->
     base_stack.__init__ lib id cfg rv today
       = Deploy [StackConstructed id] (Raise (AttributeError "environment"))) /\
  (lib "Stack" [PStr id] = Ok tt -> cfg !! "environment" = None ->
     base_stack.__init__ lib id cfg rv today
       = Deploy [StackConstructed id] (Raise (KeyError "environment"))) /\
  (forall e, lib "Stack" [PStr id] = Raise e ->
     base_stack.__init__ lib id cfg rv today = Deploy [] (Raise e)).
Proof.
  rewrite base_init_run. split; [|split; [|split; [|split]]].
  - by repeat case_match.
  - by repeat case_match.
  - by intros -> [ev ->].
  - by intros -> ->.
  - by intros e ->.
Qed.

Lemma declared_names_app t1 t2 :
  declared_names (t1 ++ t2) = (declared_names t1 ++ declared_names t2)%list.
Proof. apply omap_app. Qed.

Lemma resource_names_differ self s t i s' t' i' :
  get_resource_name self s t i = get_resource_name self s' t' i' ->
  s +:+ "-" +:+ t +:+ "-" +:+ i = s' +:+ "-" +:+ t' +:+ "-" +:+ i'.
Proof.
  unfold get_resource_name. intros H.
  do 6 (apply (inj (String.app _)) in H). exact H.
Qed.

Ltac distinct_names :=
  repeat (apply NoDup_cons_2; [|]);
  try apply NoDup_nil_2;
  rewrite ?elem_of_cons, ?elem_of_nil;
  intros H; repeat destruct H as [H|H]; try done;
  apply resource_names_differ in H; discriminate.

(** The names declared by a run that starts with a step are those of the
    step followed by those of the rest. *)
Lemma names_after_call {A} lib name args (f : unit -> deploy A) (names : list string) :
  (forall u, declared_names (trace (f u)) `sublist_of` names) ->
  declared_names (trace (call lib name args ≫= f)) `sublist_of` names.
Proof.
  intros Hf. rewrite trace_bind. unfold call, lift. cbn [outcome trace].
  destruct (lib name args); [apply Hf | apply sublist_nil_l].
Qed.

Lemma names_after_lift {A B} (r : result A) (f : A -> deploy B) (names : list string) :
  (forall a, declared_names (trace (f a)) `sublist_of` names) ->
  declared_names (trace (lift r ≫= f)) `sublist_of` names.
Proof.
  intros Hf. rewrite trace_bind. unfold lift. cbn [outcome trace].
  destruct r; [apply Hf | apply sublist_nil_l].
Qed.

Lemma names_after_declare {A} lib constructor stack logical_id name args
    (f : unit -> deploy A) (names : list string) :
  (forall u, declared_names (trace (f u)) `sublist_of` names) ->
  declared_names (trace (declare lib constructor stack logical_id name args ≫= f))
    `sublist_of` (name :: names).
Proof.
  intros Hf. rewrite trace_bind, declare_run.
  destruct (lib constructor (PStr name :: args)); cbn [outcome trace].
  - rewrite declared_names_app. apply sublist_skip, Hf.
  - apply sublist_nil_l.
Qed.

Lemma names_of_declare lib constructor stack logical_id name args :
  declared_names (trace (declare lib constructor stack logical_id name args))
    `sublist_of` [name].
Proof.
  rewrite declare_run.
  by destruct (lib constructor (PStr name :: args)); [|apply sublist_nil_l].
Qed.

(** X9.  The resource names a run of [LambdaStack.__init__] declares are
    pairwise distinct, whatever the library does, whatever the
    configuration and wherever the run stops; and so are those of the
    statements that follow the base initialiser, run on any stack. *)
Theorem lambda_stack_names_distinct lib id cfg rv today :
  NoDup (declared_names (trace (lambda_stack.__init__ lib id cfg rv today))) /\
  forall self, NoDup (declared_names (trace (lambda_stack.resources lib self))).
Proof.
  split.
  - unfold lambda_stack.__init__. rewrite trace_bind, base_init_run.
    repeat case_match; cbn; try constructor; discriminate.
  - intros self.
    apply (sublist_NoDup _
             [ get_resource_name self "lambda" "role" "execution";
               get_resource_name self "auth" "fn" "authorizer";
               get_resource_name self "main" "api" "gateway";
               get_resource_name self "api" "fn" "handler" ]);
      [distinct_names|].
    unfold lambda_stack.resources. cbv zeta.
    repeat (first [ apply names_of_declare | apply names_after_declare
                  | apply names_after_call | apply names_after_lift ];
            try intros ?).
    unfold call, lift. cbn [trace]. apply sublist_nil_l.
Qed.

End stack_runs.

(* ===================================================================== *)
(** * Further properties of region codes and of the authorizer            *)
(* ===================================================================== *)

Section region_more.
Import base_stack.

Lemma region_map_entries r code :
  region_map !! r = Some code ->
  (r, code) ∈ [("us-east-1", "use1"); ("us-west-2", "usw2"); ("eu-west-1", "euw1");
               ("eu-central-1", "euc1"); ("ap-southeast-1", "apse1")].
Proof. intros H. by apply elem_of_list_to_map_2 in H. Qed.

(** X10.  Region codes: a code has at most five characters; two regions
    of the table never share a code; but two regions outside the table
    that agree on their first four characters get the same code, and so
    does a region outside the table whose first four characters are the
    code of a region of the table. *)
Theorem region_code_collisions (r r' : string) :
  (forall code, _get_region_code (PStr r) = Ok code -> (String.length code <= 5)%nat) /\
  (forall code, region_map !! r = Some code -> region_map !! r' = Some code -> r = r') /\
  (region_map !! r = None -> region_map !! r' = None ->
   slice_to 4 r = slice_to 4 r' ->
   _get_region_code (PStr r) = _get_region_code (PStr r')) /\
  (forall code, region_map !! r = Some code -> region_map !! r' = None ->
   slice_to 4 r' = code ->
   _get_region_code (PStr r) = _get_region_code (PStr r')).
Proof.
  split; [|split; [|split]].
  - intros code. unfold _get_region_code, get_default.
    destruct (region_map !! r) as [c|] eqn:E; intros H.
    + injection H as <-. apply region_map_entries in E.
      repeat (apply elem_of_cons in E as [[= -> ->]|E]); simpl; try lia.
      by apply elem_of_nil in E.
    + replace code with (slice_to 4 r) by (cbn [default] in H; congruence).
      rewrite slice_to_length. lia.
  - intros code H H'. apply region_map_entries in H. apply region_map_entries in H'.
    repeat (apply elem_of_cons in H as [[= -> ->]|H]);
      try (by apply elem_of_nil in H);
      repeat (apply elem_of_cons in H' as [[= ->]|H']);
      try (by apply elem_of_nil in H'); try reflexivity; try discriminate.
  - intros H H' Hs. by rewrite !get_region_code_unmapped, Hs.
  - intros code H H' Hs.
    by rewrite (get_region_code_mapped _ _ H), get_region_code_unmapped, Hs.
Qed.

End region_more.

Section replace_facts.

Lemma prefix_append old t : String.prefix old (old +:+ t) = true.
Proof.
  induction old as [|c old IH]; [by destruct t|].
  change (String c old +:+ t) with (String c (old +:+ t)). simpl.
  destruct (ascii_dec c c); [done|contradiction].
Qed.

Lemma replace_from_skip old new s t :
  replace_from old new (String.length s) (s +:+ t) = replace_from old new 0 t.
Proof.
  induction s as [|c s IH]; [reflexivity|].
  change (String c s +:+ t) with (String c (s +:+ t)). exact IH.
Qed.

Lemma str_replace_prefix old new t :
  old <> "" -> str_replace old new (old +:+ t) = new +:+ str_replace old new t.
Proof.
  intros Hne. unfold str_replace. destruct old as [|c old]; [done|].
  change (String c old +:+ t) with (String c (old +:+ t)).
  cbn [replace_from].
  change (String c (old +:+ t)) with (String c old +:+ t).
  rewrite prefix_append. f_equal.
  cbn [String.length]. rewrite Nat.sub_0_r || replace (S (String.length old) - 1) with (String.length old) by lia.
  apply replace_from_skip.
Qed.

End replace_facts.

Section authorizer_more.
Import models utils handler.
Variables (jwt_decode : decoder) (environ : gmap string string).

Lemma bearer_token_insert event t :
  bearer_token (<["authorizationToken" := t]> event) = str_replace "Bearer " "" t.
Proof. unfold bearer_token, get_default. by rewrite lookup_insert_eq. Qed.

Lemma handler_outcome_by_token event event' :
  bearer_token event = bearer_token event' ->
  event !! "methodArn" = event' !! "methodArn" ->
  snd (lambda_handler jwt_decode environ event)
    = snd (lambda_handler jwt_decode environ event').
Proof.
  intros Ht Ha. unfold lambda_handler. fold (bearer_token event) (bearer_token event').
  rewrite <- Ht. unfold getitem. rewrite <- Ha.
  destruct (String.eqb (bearer_token event) ""); [reflexivity|].
  destruct (validate_token jwt_decode environ (bearer_token event)); [|reflexivity].
  cbn [mbind result_bind].
  destruct (event !! "methodArn"); [|reflexivity].
  cbn [mbind result_bind]. by destruct (to_dict a).
Qed.

(** X11.  The handler does not require the bearer prefix: an event whose
    token is written with the prefix, with the prefix twice, or without
    it has the same outcome. *)
Theorem bearer_prefix_is_optional event t :
  snd (lambda_handler jwt_decode environ (<["authorizationToken" := "Bearer " +:+ t]> event))
    = snd (lambda_handler jwt_decode environ (<["authorizationToken" := t]> event)) /\
  snd (lambda_handler jwt_decode environ
         (<["authorizationToken" := "Bearer " +:+ "Bearer " +:+ t]> event))
    = snd (lambda_handler jwt_decode environ (<["authorizationToken" := t]> event)).
Proof.
  split; apply handler_outcome_by_token;
    rewrite ?bearer_token_insert, ?str_replace_prefix by discriminate;
    try reflexivity;
    by rewrite !lookup_insert_ne by discriminate.
Qed.

(** X12.  What the authorizer logs: for an empty token the event alone;
    when [validate_token] raises, the event and then that exception,
    while the caller gets Unauthorized; an event without methodArn is
    answered Unauthorized as well, the [KeyError] being logged; and when
    a policy is returned the event alone. *)
Theorem handler_logs_the_cause event :
  (bearer_token event = "" ->
     fst (lambda_handler jwt_decode environ event) = [LogEvent event]) /\
  (forall e, bearer_token event <> "" ->
     validate_token jwt_decode environ (bearer_token event) = Raise e ->
     lambda_handler jwt_decode environ event
       = ([LogEvent event; LogError e], Raise (Exception "Unauthorized"))) /\
  (forall auth, bearer_token event <> "" ->
     validate_token jwt_decode environ (bearer_token event) = Ok auth ->
     event !! "methodArn" = None ->
     lambda_handler jwt_decode environ event
       = ([LogEvent event; LogError (KeyError "methodArn")],
          Raise (Exception "Unauthorized"))) /\
  (forall policy, snd (lambda_handler jwt_decode environ event) = Ok policy ->
     fst (lambda_handler jwt_decode environ event) = [LogEvent event]).
Proof.
  unfold lambda_handler. fold (bearer_token event).
  split; [|split; [|split]].
  - by intros ->.
  - intros e Hne Hv. destruct (String.eqb_spec (bearer_token event) ""); [done|].
    by rewrite Hv.
  - intros auth Hne Hv Ha. destruct (String.eqb_spec (bearer_token event) ""); [done|].
    rewrite Hv. cbn [mbind result_bind]. by rewrite (getitem_None _ _ Ha).
  - intros policy. destruct (String.eqb (bearer_token event) ""); [done|].
    by match goal with |- context [match ?r with _ => _ end] => destruct r end.
Qed.

(** X13.  [validate_token] verifies the token with the key of the
    variable JWT_SECRET, or with your-secret-key when it is unset.  It
    never raises [ExpiredSignatureError]: an expired token becomes the
    invalid-token error with the message Token has expired; other
    invalid-token errors pass unchanged; decoded claims without sub raise
    the [KeyError] of sub; and with sub the context holds the claims,
    with the empty list for absent roles. *)
Theorem validate_token_outcomes token :
  let key := get_default environ "JWT_SECRET" "your-secret-key" in
  (forall msg, validate_token jwt_decode environ token <> Raise (ExpiredSignatureError msg)) /\
  (forall msg, jwt_decode token key = Raise (ExpiredSignatureError msg) ->
     validate_token jwt_decode environ token = Raise (InvalidTokenError "Token has expired")) /\
  (forall msg, jwt_decode token key = Raise (InvalidTokenError msg) ->
     validate_token jwt_decode environ token = Raise (InvalidTokenError msg)) /\
  (forall payload, jwt_decode token key = Ok payload -> payload !! "sub" = None ->
     validate_token jwt_decode environ token = Raise (KeyError "sub")) /\
  (forall payload sub, jwt_decode token key = Ok payload -> payload !! "sub" = Some sub ->
     exists auth, validate_token jwt_decode environ token = Ok auth /\
       user_id auth = sub /\
       email auth = get_default payload "email" PNone /\
       expires_at auth = get_default payload "exp" PNone /\
       roles auth <> PNone /\
       (payload !! "roles" = None -> roles auth = PList [])).
Proof.
  intros key. unfold validate_token. fold key.
  split; [|split; [|split; [|split]]].
  - intros msg. destruct (jwt_decode token key) as [payload|e]; cbn [mbind result_bind].
    + unfold getitem. destruct (payload !! "sub"); cbn; discriminate.
    + destruct e; discriminate.
  - by intros msg ->.
  - by intros msg ->.
  - intros payload -> Hs. cbn [mbind result_bind]. by rewrite (getitem_None _ _ Hs).
  - intros payload sub -> Hs. cbn [mbind result_bind mret result_ret].
    rewrite (getitem_Some _ _ _ Hs). cbn [mbind result_bind mret result_ret].
    eexists. split; [reflexivity|]. cbn. repeat split.
    + by destruct (get_default payload "roles" (PList [])).
    + intros Hr. unfold get_default. by rewrite Hr.
Qed.

End authorizer_more.

Section context_facts.
Import models utils.

Lemma all_strings_fmap l : all_strings (PStr <$> l) = Ok l.
Proof.
  induction l as [|s l IH]; [done|]. cbn. rewrite IH. done.
Qed.

(** X14.  [AuthContext.to_dict]: when it returns, the dictionary has
    exactly the keys userId, email, roles and expiresAt, roles and
    expiresAt are strings, and a missing email or a missing (or zero)
    expiry is the empty string; it returns for roles that are a list of
    strings, joined with commas; and its only failure is the [TypeError]
    of the join. *)
Theorem to_dict_shape auth :
  (forall ctx, to_dict auth = Ok ctx ->
     dom ctx = ({[ "userId"; "email"; "roles"; "expiresAt" ]} : gset string) /\
     ctx !! "userId" = Some (user_id auth) /\
     (exists r, ctx !! "roles" = Some (PStr r)) /\
     (exists x, ctx !! "expiresAt" = Some (PStr x)) /\
     (truthy (email auth) = false -> ctx !! "email" = Some (PStr "")) /\
     (truthy (expires_at auth) = false -> ctx !! "expiresAt" = Some (PStr ""))) /\
  (forall l, roles auth = PList (PStr <$> l) ->
     exists ctx, to_dict auth = Ok ctx /\ ctx !! "roles" = Some (PStr (join "," l))) /\
  (forall e, to_dict auth = Raise e -> e = TypeError "join").
Proof.
  unfold to_dict. split; [|split].
  - intros ctx. destruct (join_value "," (roles auth)) as [r|]; [|discriminate].
    cbn [mbind result_bind mret result_ret]. intros [= <-].
    split; [rewrite !dom_insert_L, dom_empty_L; set_solver|].
    split; [by rewrite !lookup_insert_ne, lookup_insert_eq by discriminate|].
    split; [eexists; by rewrite lookup_insert_ne, lookup_insert_eq by discriminate|].
    split; [destruct (truthy (expires_at auth)); eexists; by rewrite lookup_insert_eq|].
    split.
    + intros ->. by rewrite !lookup_insert_ne, lookup_insert_eq by discriminate.
    + intros ->. by rewrite lookup_insert_eq.
  - intros l ->. cbn [join_value]. rewrite all_strings_fmap.
    cbn [mbind result_bind mret result_ret]. eexists. split; [reflexivity|].
    by rewrite lookup_insert_ne, lookup_insert_eq by discriminate.
  - intros e. destruct (join_value "," (roles auth)) as [r|e'] eqn:E; [discriminate|].
    cbn [mbind result_bind]. intros [= <-].
    unfold join_value in E. destruct (roles auth) as [| | | |l|]; try discriminate;
      try by injection E as <-.
    destruct (all_strings l) as [|e''] eqn:E'; [discriminate|].
    cbn in E. injection E as <-.
    clear -E'. induction l as [|v l IH]; [discriminate|].
    cbn in E'. destruct v; try by injection E' as <-.
    destruct (all_strings l); [discriminate|]. cbn in E'. injection E' as <-. by apply IH.
Qed.

(** [create_policy]: the context key is left out for an absent or empty
    context. *)
Theorem create_policy_context principal effect resource ctx :
  principalId (create_policy principal effect resource ctx) = principal /\
  policyDocument (create_policy principal effect resource ctx)
    = {| Version := "2012-10-17";
         Statements := [ {| Action := "execute-api:Invoke";
                            Effect := effect; Resource := resource |} ] |} /\
  (ctx = None \/ ctx = Some ∅ ->
     context (create_policy principal effect resource ctx) = None) /\
  (forall c, ctx = Some c -> c <> ∅ ->
     exists c', context (create_policy principal effect resource ctx) = Some c' /\
       dom c' = dom c /\
       forall k v, c !! k = Some v -> c' !! k = Some (py_str v)).
Proof.
  unfold create_policy. destruct ctx as [c|].
  - destruct (decide (c = ∅)) as [->|Hne]; cbn.
    + repeat split; try done. intros c' [= <-]. done.
    + repeat split; try done.
      * intros [?|[= ->]]; done.
      * intros c' [= <-] _. eexists. split; [done|].
        split; [apply dom_fmap_L|]. intros k v Hk. by rewrite lookup_fmap, Hk.
  - cbn. repeat split; try done.
Qed.

(** X15.  [AuthContext.is_expired]: a context without expiry, or with
    the expiry 0, never counts as expired; with an integer expiry it is
    expired exactly when the clock is past it; and once expired it stays
    expired as the clock advances. *)
Theorem is_expired_cases (now now' : Q) auth :
  (truthy (expires_at auth) = false -> is_expired now auth = Ok false) /\
  (forall z, expires_at auth = PInt z -> z <> 0%Z ->
     (is_expired now auth = Ok true <-> (inject_Z z < now)%Q) /\
     (is_expired now auth = Ok false <-> (now <= inject_Z z)%Q)) /\
  (is_expired now auth = Ok true -> (now <= now')%Q -> is_expired now' auth = Ok true).
Proof.
  unfold is_expired. split; [|split].
  - by intros ->.
  - intros z -> Hz. cbn [truthy]. destruct (Z.eqb_spec z 0); [done|]. cbn [negb].
    destruct (Qle_bool now (inject_Z z)) eqn:E; cbn [negb].
    + apply Qle_bool_iff in E. split; split; try done.
      * intros H. exfalso. by apply (Qlt_not_le _ _ H).
    + assert (~ (now <= inject_Z z)%Q) as Hn.
      { intros H. apply Qle_bool_iff in H. congruence. }
      apply Qnot_le_lt in Hn. split; split; try done.
      intros H. exfalso. by apply (Qlt_not_le _ _ Hn).
  - destruct (truthy (expires_at auth)); cbn [negb]; [|discriminate].
    assert (Hmono : forall z, negb (Qle_bool now (inject_Z z)) = true ->
              (now <= now')%Q -> negb (Qle_bool now' (inject_Z z)) = true).
    { intros z H Hle. apply negb_true_iff in H. apply negb_true_iff.
      destruct (Qle_bool now' (inject_Z z)) eqn:E; [|done].
      apply Qle_bool_iff in E. assert (Hz : (now <= inject_Z z)%Q) by (eapply Qle_trans; eauto).
      apply Qle_bool_iff in Hz. congruence. }
    destruct (expires_at auth) as [|b|z| | |]; try discriminate;
      intros [= H] Hle; f_equal; by eapply Hmono.
Qed.

End context_facts.

(* ===================================================================== *)
(** * Properties of the API handler and of responses                      *)
(* ===================================================================== *)

Section response_facts.
Import models utils.

(** [create_response]: the defaults replace absent and empty headers, a
    string body is passed as it is. *)
Theorem create_response_defaults
    (json_dumps : pyval -> string) (status : Z) (body : pyval)
    (hdrs : option (gmap string string)) :
  statusCode (create_response json_dumps status body hdrs) = status /\
  (hdrs = None \/ hdrs = Some ∅ ->
     headers (create_response json_dumps status body hdrs) = default_headers) /\
  (forall h, hdrs = Some h -> h <> ∅ ->
     headers (create_response json_dumps status body hdrs) = h) /\
  (forall s, body = PStr s ->
     utils.body (create_response json_dumps status body hdrs) = s) /\
  ((forall s, body <> PStr s) ->
     utils.body (create_response json_dumps status body hdrs) = json_dumps body).
Proof.
  unfold create_response. cbn. split; [done|]. split; [|split; [|split]].
  - intros [->| ->]; [done|]. by rewrite decide_True.
  - intros h -> Hne. by rewrite decide_False.
  - by intros s ->.
  - intros Hns. destruct body; try done. by destruct (Hns s).
Qed.

(** [ResponseModel.to_dict], key by key. *)
Theorem response_to_dict_keys (self : ResponseModel) :
  response_to_dict self !! "success" = Some (success self) /\
  response_to_dict self !! "data"
    = match data self with PNone => None | v => Some v end /\
  response_to_dict self !! "error"
    = (if truthy (error self) then Some (error self) else None) /\
  response_to_dict self !! "requestId"
    = (if truthy (request_id self) then Some (request_id self) else None) /\
  (forall k, k <> "success" -> k <> "data" -> k <> "error" -> k <> "requestId" ->
     response_to_dict self !! k = None).
Proof.
  unfold response_to_dict.
  destruct (data self), (truthy (error self)), (truthy (request_id self));
    repeat split; try (intros k ? ? ? ?);
    by simplify_map_eq.
Qed.

End response_facts.

Section api_handler_facts.
Import utils api_handler.
Variable json_dumps : pyval -> string.




(** X16.  The API handler answers every event with status 200 or 500 and
    the default headers, and never raises.  Without a request context,
    or without an authorizer entry in it, the user is unknown; with an
    authorizer mapping the user is its userId; and when the request
    context or the authorizer entry is not a mapping the answer is the
    internal-error response with status 500, the [AttributeError] being
    logged. *)
Theorem api_handler_responses (event : gmap string pyval) (context : LambdaContext) :
  let response := snd (lambda_handler json_dumps event context) in
  (statusCode response = 200%Z \/ statusCode response = 500%Z) /\
  headers response = default_headers /\
  (event !! "requestContext" = None ->
     response = create_response json_dumps 200 (greeting (PStr "unknown") context) None) /\
  (forall kvs, event !! "requestContext" = Some (PDict kvs) ->
     assoc "authorizer" kvs = None ->
     response = create_response json_dumps 200 (greeting (PStr "unknown") context) None) /\
  (forall kvs auth, event !! "requestContext" = Some (PDict kvs) ->
     assoc "authorizer" kvs = Some (PDict auth) ->
     response = create_response json_dumps 200
                  (greeting (default (PStr "unknown") (assoc "userId" auth)) context) None) /\
  (forall v, event !! "requestContext" = Some v -> is_mapping v = false ->
     lambda_handler json_dumps event context
       = ([LogEvent event; LogError (AttributeError "get")],
          create_response json_dumps 500 internal_error None)) /\
  (forall kvs v, event !! "requestContext" = Some (PDict kvs) ->
     assoc "authorizer" kvs = Some v -> is_mapping v = false ->
     lambda_handler json_dumps event context
       = ([LogEvent event; LogError (AttributeError "get")],
          create_response json_dumps 500 internal_error None)).
Proof.
  unfold lambda_handler, get_default, greeting, internal_error.
  split; [|split; [|split; [|split; [|split; [|split]]]]].
  - destruct (event !! "requestContext") as [[| | | | |kvs]|]; cbn; auto.
    all: destruct (assoc "authorizer" kvs) as [[| | | | |auth]|]; cbn; auto.
  - destruct (event !! "requestContext") as [[| | | | |kvs]|]; cbn; auto.
    all: destruct (assoc "authorizer" kvs) as [[| | | | |auth]|]; cbn; auto.
  - by intros ->.
  - intros kvs -> Ha. cbn. by rewrite Ha.
  - intros kvs auth -> Ha. cbn. by rewrite Ha.
  - intros v -> Hv. by destruct v.
  - intros kvs v -> Ha Hv. cbn. rewrite Ha. by destruct v.
Qed.

End api_handler_facts.

(* ===================================================================== *)
(** * Instances of the further properties                                 *)
(* ===================================================================== *)

Lemma validate_tags_accepts_iff_compliant_witness :
  compliant validate_tags.test_tags.
Proof.
  apply (validate_tags_accepts_iff_compliant elements validate_tags.test_tags).
  vm_compute. reflexivity.
Defined.

Lemma validate_tags_message_layout_witness :
  exists errors,
    validate_tags.validate_tags elements (delete "Owner" validate_tags.test_tags)
      = Ok errors /\ length errors <= 4.
Proof.
  destruct (validate_tags_message_layout elements
              (delete "Owner" validate_tags.test_tags))
    as (errors & Hrun & Hlen & _).
  - intros X. reflexivity.
  - exists errors. split; assumption.
Defined.

Lemma strptime_strftime_round_trip_witness :
  validate_tags.strptime_ymd (base_stack.strftime_ymd 2024 1 15)
    = Ok (2024, 1, 15)%Z.
Proof.
  apply strptime_strftime_round_trip; [reflexivity | lia].
Defined.

Lemma strptime_accepts_only_calendar_dates_witness :
  validate_tags.valid_date 2024 2 29 = true /\
  8 <= String.length "2024-2-29" <= 10.
Proof.
  apply (strptime_accepts_only_calendar_dates "2024-2-29" 2024 2 29).
  reflexivity.
Defined.


Lemma main_stops_at_environment_assignment_witness :
  app.main accepting ∅ "2024-01-15" staging_config ∅
    = Deploy [StackConstructed "acme-dev-layer-stack"]
             (Raise (AttributeError "environment")).
Proof.
  destruct (main_stops_at_environment_assignment
              accepting ∅ "2024-01-15" staging_config ∅) as [Hstop _].
  apply (Hstop (PStr "acme") (PStr "us-east-1")); try reflexivity.
  eexists. reflexivity.
Defined.

Lemma base_init_never_returns_witness :
  base_stack.__init__ accepting "acme-stg-layer-stack" staging_config
      (PStr "us-east-1") "2024-01-15"
    = Deploy [StackConstructed "acme-stg-layer-stack"]
             (Raise (AttributeError "environment")).
Proof.
  destruct (base_init_never_returns accepting "acme-stg-layer-stack" staging_config
              (PStr "us-east-1") "2024-01-15") as (_ & _ & Hattr & _).
  apply Hattr; [reflexivity|]. eexists. reflexivity.
Defined.

Lemma region_code_collisions_witness :
  base_stack._get_region_code (PStr "eu-west-2")
    = base_stack._get_region_code (PStr "eu-west-3").
Proof.
  destruct (region_code_collisions "eu-west-2" "eu-west-3") as (_ & _ & Hsame & _).
  apply Hsame; reflexivity.
Defined.

Lemma handler_logs_the_cause_witness :
  handler.lambda_handler sample_decoder ∅ (api_gateway_event "Bearer expired-token")
    = ([ handler.LogEvent (api_gateway_event "Bearer expired-token");
         handler.LogError (InvalidTokenError "Token has expired") ],
       Raise (Exception "Unauthorized")).
Proof.
  destruct (handler_logs_the_cause sample_decoder ∅
              (api_gateway_event "Bearer expired-token")) as (_ & Hfail & _).
  apply Hfail; [discriminate | reflexivity].
Defined.

Lemma validate_token_outcomes_witness :
  exists auth,
    utils.validate_token sample_decoder ∅ "valid-token" = Ok auth /\
    models.user_id auth = PStr "user123".
Proof.
  destruct (validate_token_outcomes sample_decoder ∅ "valid-token")
    as (_ & _ & _ & _ & Hok).
  destruct (Hok _ (PStr "user123") eq_refl eq_refl) as (auth & Hrun & Hid & _).
  exists auth. split; assumption.
Defined.

Lemma to_dict_shape_witness :
  exists ctx,
    models.to_dict (models.make (PStr "user123") PNone
                      (PList [PStr "admin"; PStr "ops"]) PNone) = Ok ctx /\
    ctx !! "roles" = Some (PStr "admin,ops").
Proof.
  destruct (to_dict_shape (models.make (PStr "user123") PNone
                             (PList [PStr "admin"; PStr "ops"]) PNone))
    as (_ & Hroles & _).
  apply (Hroles ["admin"; "ops"]). reflexivity.
Defined.

Lemma is_expired_cases_witness :
  models.is_expired (inject_Z 1700000000)
    (models.make (PStr "user123") PNone PNone (PInt 0)) = Ok false.
Proof.
  destruct (is_expired_cases (inject_Z 1700000000) (inject_Z 1700000000)
              (models.make (PStr "user123") PNone PNone (PInt 0)))
    as (Hnever & _).
  apply Hnever. reflexivity.
Defined.

Lemma api_handler_responses_witness :
  snd (api_handler.lambda_handler (fun _ => "{}") ∅
         {| api_handler.aws_request_id := "request-1" |})
    = utils.create_response (fun _ => "{}") 200
        (greeting (PStr "unknown") {| api_handler.aws_request_id := "request-1" |})
        None.
Proof.
  destruct (api_handler_responses (fun _ => "{}") ∅
              {| api_handler.aws_request_id := "request-1" |})
    as (_ & _ & Habsent & _).
  apply Habsent. reflexivity.
Defined.
